(** * QECLab: decoders of four small quantum error-correcting codes and the
    noise-sweep estimator, embedded from the Python sources.

    Conventions of the embedding.
    - A Python [str] is a list of characters ([list ascii]); literals are
      written as Rocq strings and coerced.
    - A Python [int] is a [Z]; the shot counts of a counts dictionary are
      arbitrary integers, as the type [dict[str, int]] allows.
    - A Python [dict] is an association list in insertion order, since the
      sources iterate over [counts.items()] and over the result of a sweep.
    - [raise ValueError(msg)] is the [Raise] constructor of [result].
    - A Python [float] is modelled by the rational number it denotes, in
      lowest terms; [a / b] on two ints is the exact quotient (Python rounds
      it to the nearest double).  Not-a-number is not modelled. *)

From Stdlib Require Import List String Ascii ZArith QArith Qreduction Bool Lia.
From Stdlib Require Import DecimalString Permutation Qfield.
Import ListNotations.

Set Implicit Arguments.

Local Open Scope string_scope.
Local Open Scope list_scope.
Local Open Scope Z_scope.

(** ** Python values *)

Definition str : Type := list ascii.

Definition lit (s : string) : str := list_ascii_of_string s.
Coercion lit : string >-> str.

Inductive exn : Type :=
| ValueError (msg : string)
| KeyError (key : string).

Inductive result (A : Type) : Type :=
| Ok (a : A)
| Raise (e : exn).
Arguments Ok {A} a.
Arguments Raise {A} e.

Definition bind {A B : Type} (m : result A) (k : A -> result B) : result B :=
  match m with
  | Ok a => k a
  | Raise e => Raise e
  end.

Declare Scope py_scope.
Delimit Scope py_scope with py.
Notation "x <- m ;; k" := (bind m (fun x => k))
  (at level 61, m at next level, right associativity) : py_scope.

Definition dict (K V : Type) : Type := list (K * V).

Definition items {K V : Type} (d : dict K V) : list (K * V) := d.
Definition keys {K V : Type} (d : dict K V) : list K := map fst d.
Definition values {K V : Type} (d : dict K V) : list V := map snd d.

(** [sum(xs)] on ints. *)
Definition sum (xs : list Z) : Z := fold_left Z.add xs 0.

(** [len(s)]. *)
Definition len {A : Type} (s : list A) : Z := Z.of_nat (List.length s).

(** [s == t] on strings. *)
Definition str_eqb (s t : str) : bool :=
  if list_eq_dec ascii_dec s t then true else false.

(** [s.count(c)] for a one-character [c], and [xs.count(v)] on a list of
    ints. *)
Fixpoint str_count (c : ascii) (s : str) : Z :=
  match s with
  | [] => 0
  | x :: t => (if Ascii.eqb x c then 1 else 0) + str_count c t
  end.

Fixpoint int_count (v : Z) (xs : list Z) : Z :=
  match xs with
  | [] => 0
  | x :: t => (if x =? v then 1 else 0) + int_count v t
  end.

(** Slices with non-negative constant bounds: [s[::-1]], [s[:n]],
    [s[a:b]] and [s[a::k]].  A slice never raises; it is cut at the end of
    the sequence. *)
Definition reversed {A : Type} (s : list A) : list A := rev s.

Definition slice_to {A : Type} (n : nat) (s : list A) : list A := firstn n s.

Definition slice {A : Type} (a b : nat) (s : list A) : list A :=
  firstn (b - a) (skipn a s).

Fixpoint every {A : Type} (k wait : nat) (s : list A) : list A :=
  match s with
  | [] => []
  | x :: t =>
      match wait with
      | O => x :: every k (k - 1) t
      | S w => every k w t
      end
  end.

Definition slice_step {A : Type} (a k : nat) (s : list A) : list A :=
  every k 0 (skipn a s).

(** [int(s)] for a string of decimal digits; the decoders only reach it with
    ["0"] or ["1"]. *)
Definition digit (c : ascii) : Z := Z.of_nat (nat_of_ascii c) - 48.

Definition int_of_str (s : str) : Z :=
  fold_left (fun acc c => 10 * acc + digit c) s 0.

(** [a / b] on two ints, [b] not zero: the exact quotient, which Python
    rounds to the nearest double, raising OverflowError when it lies beyond
    the doubles.  The decoders divide a number of errors by a total of
    frequencies: without a negative frequency the quotient lies between 0
    and 1. *)
Definition true_div (a b : Z) : Q := Qred (inject_Z a / inject_Z b).

(** [logical_state in {"0", "1"}], and the error every code raises when
    the test fails. *)
Definition is_logical_state (s : str) : bool :=
  str_eqb s "0" || str_eqb s "1".

Definition unsupported_state : exn :=
  ValueError "Only logical states '0' and '1' are supported.".

(** The body of the loop over [counts.items()], which the three vote
    decoders share line for line: [logical_out] is the part that maps the
    key to a logical bit, and [logical_errors += shots] follows when that
    bit differs from the expected one. *)
Definition tally (logical_out : str -> Z) (expected_logical : Z)
    (logical_errors : Z) (item : str * Z) : Z :=
  let (bitstring, shots) := item in
  if negb (logical_out bitstring =? expected_logical)
  then logical_errors + shots
  else logical_errors.

(** ** Circuits, as the list of instructions the builders append. *)

Inductive instruction : Type :=
| X (q : nat)
| H (q : nat)
| CX (control target : nat)
| Measure (q c : nat).

Record QuantumCircuit : Type := mkCircuit {
  num_qubits : nat;
  num_clbits : nat;
  data : list instruction
}.

(** ** qec_lab/codes/repetition3.py *)

Module repetition3.

Definition name : string := "3-qubit repetition code".
Definition n_physical : nat := 3.
Definition n_logical : nat := 1.

Definition build_circuit (logical_state : str) : result QuantumCircuit :=
  (prepare <- (if str_eqb logical_state "1" then Ok [X 0]
               else if negb (str_eqb logical_state "0")
                    then Raise unsupported_state
                    else Ok []) ;;
   Ok (mkCircuit n_physical n_physical
         (prepare ++ [CX 0 1; CX 0 2]
                  ++ [Measure 0 0; Measure 1 1; Measure 2 2])))%py.

(** The body of the loop over [counts.items()] up to [logical_out]. *)
Definition logical_out (bitstring : str) : Z :=
  let ones := str_count "1"%char bitstring in
  if 2 <=? ones then 1 else 0.

Definition logical_error_rate_from_counts
    (counts : dict str Z) (logical_state : str) : result Q :=
  if negb (is_logical_state logical_state) then Raise unsupported_state
  else
    let expected_logical := int_of_str logical_state in
    let total_shots := sum (values counts) in
    let logical_errors :=
      fold_left (tally logical_out expected_logical) (items counts) 0 in
    if total_shots =? 0 then Ok 0%Q
    else Ok (true_div logical_errors total_shots).

End repetition3.

(** ** qec_lab/codes/shor9.py *)

Module shor9.

Definition name : string := "9-qubit Shor code".
Definition n_physical : nat := 9.
Definition n_logical : nat := 1.

Definition build_circuit (logical_state : str) : result QuantumCircuit :=
  (prepare <- (if str_eqb logical_state "1" then Ok [X 0]
               else if negb (str_eqb logical_state "0")
                    then Raise unsupported_state
                    else Ok []) ;;
   Ok (mkCircuit n_physical n_physical
         (prepare ++ [CX 0 3; CX 0 6]
            ++ map H [0; 3; 6]
            ++ flat_map (fun start => [CX start (start + 1);
                                       CX start (start + 2)]) [0; 3; 6]
            ++ map H [0; 3; 6]
            ++ map (fun qubit => Measure qubit qubit)
                   (seq 0 n_physical))))%py%nat.

Definition block_value (bits : str) (start : nat) : Z :=
  let block := slice start (start + 3) bits in
  let ones := str_count "1"%char block in
  if 2 <=? ones then 1 else 0.

Definition logical_out (bitstring : str) : Z :=
  let bits := reversed bitstring in
  let block_values := map (block_value bits) [0; 3; 6]%nat in
  if 2 <=? int_count 1 block_values then 1 else 0.

Definition logical_error_rate_from_counts
    (counts : dict str Z) (logical_state : str) : result Q :=
  if negb (is_logical_state logical_state) then Raise unsupported_state
  else
    let expected_logical := int_of_str logical_state in
    let total_shots := sum (values counts) in
    let logical_errors :=
      fold_left (tally logical_out expected_logical) (items counts) 0 in
    if total_shots =? 0 then Ok 0%Q
    else Ok (true_div logical_errors total_shots).

End shor9.

(** ** qec_lab/codes/rotated_surface_d3.py *)

Module rotated_surface_d3.

Definition name : string := "d=3 rotated surface code".
Definition n_physical : nat := 17.
Definition n_logical : nat := 1.

Definition x_stabilizers : list (list nat) :=
  [[0; 1; 3; 4]; [1; 2; 4; 5]; [3; 4; 6; 7]; [4; 5; 7; 8]]%nat.

Definition z_stabilizers : list (list nat) :=
  [[0; 3; 1; 4]; [1; 4; 2; 5]; [3; 6; 4; 7]; [4; 7; 5; 8]]%nat.

Definition build_circuit (logical_state : str) : result QuantumCircuit :=
  if negb (is_logical_state logical_state) then Raise unsupported_state
  else
    let data := seq 0 9 in
    let anc_x := seq 9 4 in
    let anc_z := seq 13 4 in
    Ok (mkCircuit n_physical n_physical
          ((if str_eqb logical_state "1" then [X (hd O data)] else [])
             ++ map (fun target => CX (hd O data) target) (tl data)
             ++ flat_map (fun '(anc, qubits) =>
                            [H anc] ++ map (fun q => CX q anc) qubits
                                    ++ [H anc])
                         (combine anc_x x_stabilizers)
             ++ flat_map (fun '(anc, qubits) =>
                            map (fun q => CX q anc) qubits)
                         (combine anc_z z_stabilizers)
             ++ map (fun qubit => Measure qubit qubit)
                    (seq 0 n_physical))).

Definition row_vote (data_bits : str) (start : nat) : Z :=
  if 2 <=? str_count "1"%char (slice start (start + 3) data_bits)
  then 1 else 0.

Definition col_vote (data_bits : str) (start : nat) : Z :=
  if 2 <=? str_count "1"%char (slice_to 3 (slice_step start 3 data_bits))
  then 1 else 0.

Definition logical_out (bitstring : str) : Z :=
  let bits := reversed bitstring in
  let data_bits := slice_to 9 bits in
  let rows := map (row_vote data_bits) [0; 3; 6]%nat in
  let cols := map (col_vote data_bits) (seq 0 3) in
  let votes := rows ++ cols in
  if 3 <=? int_count 1 votes then 1 else 0.

Definition logical_error_rate_from_counts
    (counts : dict str Z) (logical_state : str) : result Q :=
  if negb (is_logical_state logical_state) then Raise unsupported_state
  else
    let expected_logical := int_of_str logical_state in
    let total_shots := sum (values counts) in
    let logical_errors :=
      fold_left (tally logical_out expected_logical) (items counts) 0 in
    if total_shots =? 0 then Ok 0%Q
    else Ok (true_div logical_errors total_shots).

End rotated_surface_d3.

(** ** codes/steane7.py *)

Module steane7.

Definition _EVEN_CODEWORDS : list str :=
  [lit "0000000"; lit "1010101"; lit "0110011"; lit "1100110";
   lit "0001111"; lit "1011010"; lit "0111100"; lit "1101001"].

Definition _ODD_CODEWORDS : list str :=
  map (map (fun b => if Ascii.eqb b "0" then "1"%char else "0"%char))
      _EVEN_CODEWORDS.

Definition name : string := "7-qubit Steane code".
Definition n_physical : nat := 7.
Definition n_logical : nat := 1.

Definition build_circuit (logical_state : str) : result QuantumCircuit :=
  if negb (is_logical_state logical_state) then Raise unsupported_state
  else
    Ok (mkCircuit n_physical n_physical
          ([H 0; H 1; H 3]
             ++ [CX 0 2; CX 3 5; CX 1 6]
             ++ [CX 0 4; CX 3 6; CX 1 5]
             ++ [CX 0 6; CX 1 2; CX 3 4]
             ++ (if str_eqb logical_state "1"
                 then map X (seq 0 n_physical) else [])
             ++ map (fun q => Measure q q) (seq 0 n_physical))).

Definition _hamming_distance (a b : str) : result Z :=
  if negb (len a =? len b)
  then Raise (ValueError "Bitstrings must have the same length.")
  else Ok (sum (map (fun '(ch1, ch2) =>
                       if negb (Ascii.eqb ch1 ch2) then 1 else 0)
                    (combine a b))).

Definition too_short (bitstring : str) : exn :=
  ValueError ("Expected at least "
                ++ NilEmpty.string_of_uint (Nat.to_uint n_physical)
                ++ " bits in measurement bitstring, got '"
                ++ string_of_list_ascii bitstring ++ "'.")%string.

(** One [for cw in ...] loop of [_decode_logical_bit]: [best] is the pair
    [(best_dist, best_logical)], [label] the value the loop assigns to
    [best_logical]. *)
Fixpoint nearest (data_bits : str) (label : Z) (codewords : list str)
    (best : Z * Z) : result (Z * Z) :=
  match codewords with
  | [] => Ok best
  | cw :: rest =>
      (d <- _hamming_distance data_bits cw ;;
       nearest data_bits label rest
               (if d <? fst best then (d, label) else best))%py
  end.

Definition _decode_logical_bit (bitstring : str) : result Z :=
  let bits_str := reversed bitstring in
  if len bits_str <? Z.of_nat n_physical then Raise (too_short bitstring)
  else
    let data_bits := slice_to n_physical bits_str in
    let best_logical := 0 in
    let best_dist := Z.of_nat n_physical + 1 in
    (best <- nearest data_bits 0 _EVEN_CODEWORDS (best_dist, best_logical) ;;
     best <- nearest data_bits 1 _ODD_CODEWORDS best ;;
     Ok (snd best))%py.

(** The loop over [counts.items()]; a key that fails to decode aborts it. *)
Fixpoint count_errors (expected_logical : Z) (its : list (str * Z))
    (logical_errors : Z) : result Z :=
  match its with
  | [] => Ok logical_errors
  | (bitstring, shots) :: rest =>
      (logical_out <- _decode_logical_bit bitstring ;;
       count_errors expected_logical rest
                    (if negb (logical_out =? expected_logical)
                     then logical_errors + shots
                     else logical_errors))%py
  end.

Definition logical_error_rate_from_counts
    (counts : dict str Z) (logical_state : str) : result Q :=
  if negb (is_logical_state logical_state) then Raise unsupported_state
  else
    let expected_logical := int_of_str logical_state in
    let total_shots := sum (values counts) in
    (logical_errors <- count_errors expected_logical (items counts) 0 ;;
     if total_shots =? 0 then Ok 0%Q
     else Ok (true_div logical_errors total_shots))%py.

End steane7.

(** ** qec_lab/codes/base.py: the interface of a code, and the four codes. *)

Record BaseCode : Type := mkCode {
  name : string;
  n_physical : nat;
  n_logical : nat;
  build_circuit : str -> result QuantumCircuit;
  logical_error_rate_from_counts : dict str Z -> str -> result Q
}.

Definition RepetitionCode3 : BaseCode :=
  mkCode repetition3.name repetition3.n_physical
         repetition3.n_logical repetition3.build_circuit
         repetition3.logical_error_rate_from_counts.

Definition ShorCode9 : BaseCode :=
  mkCode shor9.name shor9.n_physical shor9.n_logical
         shor9.build_circuit shor9.logical_error_rate_from_counts.

Definition RotatedSurfaceCodeD3 : BaseCode :=
  mkCode rotated_surface_d3.name rotated_surface_d3.n_physical
         rotated_surface_d3.n_logical rotated_surface_d3.build_circuit
         rotated_surface_d3.logical_error_rate_from_counts.

Definition SteaneCode7 : BaseCode :=
  mkCode steane7.name steane7.n_physical steane7.n_logical
         steane7.build_circuit
         steane7.logical_error_rate_from_counts.

Definition all_codes : list BaseCode :=
  [RepetitionCode3; ShorCode9; RotatedSurfaceCodeD3; SteaneCode7].

(** ** noise/models.py

    A noise model is the list of [(error, gate)] pairs registered with
    [add_all_qubit_quantum_error], in order; the errors are the terms Qiskit
    Aer is asked to build. *)

Module noise.

Inductive QuantumError : Type :=
| pauli_error (terms : list (string * Q))
| tensor (a b : QuantumError)
| depolarizing_error (p : Q) (num_qubits : nat)
| amplitude_damping_error (gamma : Q).

(** A noise model is kept as the calls of [add_all_qubit_quantum_error]
    made on it, each with its error and its gate, in order: what Aer stores
    for a call is outside the repository. *)
Definition NoiseModel : Type := list (QuantumError * string).

Definition _SINGLE_QUBIT_GATES : list string :=
  ["id"; "x"; "y"; "z"; "h"; "sx"].
Definition _TWO_QUBIT_GATES : list string := ["cx"].

(** [0.0 <= p <= 1.0] *)
Definition in_unit_interval (p : Q) : bool :=
  Qle_bool 0 p && Qle_bool p 1.

(** The two loops over the gate lists that end each of the four builders. *)
Definition register (single_qubit_error two_qubit_error : QuantumError)
  : NoiseModel :=
  map (fun gate => (single_qubit_error, gate)) _SINGLE_QUBIT_GATES
    ++ map (fun gate => (two_qubit_error, gate)) _TWO_QUBIT_GATES.

Definition bit_flip_noise_model (p : Q) : result NoiseModel :=
  if negb (in_unit_interval p)
  then Raise (ValueError "Probability p must be between 0 and 1.")
  else
    let single_qubit_error := pauli_error [("X", p); ("I", (1 - p)%Q)] in
    let two_qubit_error := tensor single_qubit_error single_qubit_error in
    Ok (register single_qubit_error two_qubit_error).

Definition phase_flip_noise_model (p : Q) : result NoiseModel :=
  if negb (in_unit_interval p)
  then Raise (ValueError "Probability p must be between 0 and 1.")
  else
    let single_qubit_error := pauli_error [("Z", p); ("I", (1 - p)%Q)] in
    let two_qubit_error := tensor single_qubit_error single_qubit_error in
    Ok (register single_qubit_error two_qubit_error).

Definition depolarizing_noise_model (p : Q) : result NoiseModel :=
  if negb (in_unit_interval p)
  then Raise (ValueError "Probability p must be between 0 and 1.")
  else
    let single_qubit_error := depolarizing_error p 1 in
    let two_qubit_error := depolarizing_error p 2 in
    Ok (register single_qubit_error two_qubit_error).

Definition amplitude_damping_noise_model (gamma : Q) : result NoiseModel :=
  if negb (in_unit_interval gamma)
  then Raise (ValueError "Damping parameter gamma must be between 0 and 1.")
  else
    let single_qubit_error := amplitude_damping_error gamma in
    let two_qubit_error := tensor single_qubit_error single_qubit_error in
    Ok (register single_qubit_error two_qubit_error).

(** noise/__init__.py *)
Definition __all__ : list string :=
  ["bit_flip_noise_model"; "phase_flip_noise_model";
   "depolarizing_noise_model"; "amplitude_damping_noise_model"].

End noise.

(** ** Dictionaries in insertion order *)

Section Dict.
Variables K V : Type.
Variable eqb : K -> K -> bool.

(** [k in d] *)
Definition dict_mem (k : K) (d : dict K V) : bool :=
  existsb (fun kv => eqb (fst kv) k) d.

(** [d[k]] *)
Fixpoint dict_get (k : K) (d : dict K V) : option V :=
  match d with
  | [] => None
  | (k', v) :: t => if eqb k' k then Some v else dict_get k t
  end.

(** [d[k] = v]: an existing key keeps its place (and the key object first
    inserted), a new key goes to the end. *)
Fixpoint dict_set (d : dict K V) (k : K) (v : V) : dict K V :=
  match d with
  | [] => [(k, v)]
  | (k', v') :: t =>
      if eqb k' k then (k', v) :: t else (k', v') :: dict_set t k v
  end.
End Dict.

(** ** experiments/sweep.py *)

Module sweep.

Import noise.

Definition _NOISE_BUILDERS : dict str (Q -> result NoiseModel) :=
  [(lit "bit_flip", bit_flip_noise_model);
   (lit "depolarizing", depolarizing_noise_model);
   (lit "amplitude_damping", amplitude_damping_noise_model)].

Definition unknown_noise_type (noise_type : str) : exn :=
  ValueError ("Unknown noise_type '" ++ string_of_list_ascii noise_type
                                     ++ "'.")%string.

(** What leaves the program: a run of the Aer simulator (construction with
    the noise model, transpilation, [run], [get_counts]) and a printed
    line, kept as its fields. *)
Inductive event : Type :=
| SimulatorRun (circuit : QuantumCircuit) (noise_model : NoiseModel)
               (shots : Z)
| Print (code_name : string) (noise_type : str) (p logical_error : Q).

Definition is_run (e : event) : bool :=
  match e with SimulatorRun _ _ _ => true | Print _ _ _ _ => false end.

Section WithSimulator.

(** The simulator is outside the repository: [rng] is its hidden state
    and [backend] the counts it samples. *)
Variable rng : Type.
Variable backend :
  QuantumCircuit -> NoiseModel -> Z -> rng -> dict str Z * rng.

Record world : Type := mkWorld {
  trace : list event;
  seed : rng
}.

(** Computations that act on the world and may raise; what was done
    before a [raise] stays done. *)
Definition io (A : Type) : Type := world -> world * result A.

Definition ret {A : Type} (a : A) : io A := fun w => (w, Ok a).

Definition iobind {A B : Type} (m : io A) (k : A -> io B) : io B :=
  fun w =>
    match m w with
    | (w', Ok a) => k a w'
    | (w', Raise e) => (w', Raise e)
    end.

Definition lift {A : Type} (r : result A) : io A := fun w => (w, r).

Definition simulate (circuit : QuantumCircuit) (noise_model : NoiseModel)
    (shots : Z) : io (dict str Z) :=
  fun w =>
    let (counts, seed') := backend circuit noise_model shots (seed w) in
    (mkWorld (trace w ++ [SimulatorRun circuit noise_model shots]) seed',
     Ok counts).

Definition print (code_name : string) (noise_type : str)
    (p logical_error : Q) : io unit :=
  fun w =>
    (mkWorld (trace w ++ [Print code_name noise_type p logical_error])
             (seed w),
     Ok tt).

Local Notation "x <- m ;; k" := (iobind m (fun x => k))
  (at level 61, m at next level, right associativity).

(** [_NOISE_BUILDERS[noise_type]] *)
Definition lookup_builder (noise_type : str)
  : result (Q -> result NoiseModel) :=
  match dict_get str_eqb noise_type _NOISE_BUILDERS with
  | Some noise_builder => Ok noise_builder
  | None => Raise (KeyError (string_of_list_ascii noise_type))
  end.

Definition run_physical_qubit (p : Q) (logical_state : str) (shots : Z)
    (noise_type : str) : io Q :=
  if negb (is_logical_state logical_state) then lift (Raise unsupported_state)
  else if negb (dict_mem str_eqb noise_type _NOISE_BUILDERS)
  then lift (Raise (unknown_noise_type noise_type))
  else
    let circuit :=
      mkCircuit 1 1 ((if str_eqb logical_state "1" then [X 0] else [])
                       ++ [Measure 0 0]) in
    noise_builder <- lift (lookup_builder noise_type) ;;
    noise_model <- lift (noise_builder p) ;;
    counts <- simulate circuit noise_model shots ;;
    let expected := logical_state in
    let total_shots := sum (values counts) in
    let wrong_shots :=
      sum (map snd (filter (fun '(bitstring, shot) =>
                              negb (str_eqb bitstring expected))
                           (items counts))) in
    if total_shots =? 0 then ret 0%Q
    else ret (true_div wrong_shots total_shots).

(** The loop [for p in ps] of [run_code_on_noise_grid]. *)
Fixpoint grid_loop (code : BaseCode)
    (noise_builder : Q -> result NoiseModel) (noise_type : str)
    (logical_state : str) (shots : Z) (ps : list Q)
    (results : dict Q Q) : io (dict Q Q) :=
  match ps with
  | [] => ret results
  | p :: rest =>
      noise_model <- lift (noise_builder p) ;;
      circuit <- lift (build_circuit code logical_state) ;;
      counts <- simulate circuit noise_model shots ;;
      logical_error <-
        lift (logical_error_rate_from_counts code counts logical_state) ;;
      let results := dict_set Qeq_bool results p logical_error in
      _ <- print (name code) noise_type p logical_error ;;
      grid_loop code noise_builder noise_type logical_state shots rest
                results
  end.

Definition run_code_on_noise_grid (code : BaseCode) (ps : list Q)
    (noise_type : str) (logical_state : str) (shots : Z)
  : io (dict Q Q) :=
  if negb (dict_mem str_eqb noise_type _NOISE_BUILDERS)
  then lift (Raise (unknown_noise_type noise_type))
  else
    let results : dict Q Q := [] in
    noise_builder <- lift (lookup_builder noise_type) ;;
    grid_loop code noise_builder noise_type logical_state shots ps
              results.

(** Number of simulator runs recorded in a world. *)
Definition simulator_runs (w : world) : nat :=
  List.length (filter is_run (trace w)).

End WithSimulator.

Arguments mkWorld {rng} trace seed.
Arguments trace {rng} w.
Arguments seed {rng} w.
Arguments simulator_runs {rng} w.

(** A simulator that always reports every shot on the all-zero key; it
    serves as a concrete backend in examples. *)
Definition ideal_backend (circuit : QuantumCircuit) (noise_model : NoiseModel)
    (shots : Z) (s : unit) : dict str Z * unit :=
  ([(repeat "0"%char (num_clbits circuit), shots)], s).

Definition start : world unit := mkWorld [] tt.

End sweep.

(** ** experiments/active_correction_demo.py

    The circuit of the demonstration has two named classical registers and
    conditional blocks, so it has its own instruction type.  The simulator
    is built without a noise model.  A division by zero raises
    [ZeroDivisionError], which the other files cannot raise. *)

Module active_correction_demo.

(** Syndrome value ([0b01], [0b10], [0b11]) to the data qubit to flip. *)
Definition _SYNDROME_TO_DATA : dict Z nat :=
  [(1, 0%nat); (2, 2%nat); (3, 1%nat)].

#[warnings="-register-all"]
Inductive operation : Type :=
| x (q : nat)
| cx (control target : nat)
| measure (q : nat) (register : string) (index : nat)
| barrier
| if_test (register : string) (value : Z) (body : list operation).

Record Circuit : Type := mkDemoCircuit {
  qubits : nat;
  circuit_name : string;
  registers : list (string * nat);
  operations : list operation
}.

(** [error_qubit in {None, 0, 1, 2}] *)
Definition allowed_error_qubit (error_qubit : option Z) : bool :=
  match error_qubit with
  | None => true
  | Some q => (q =? 0) || (q =? 1) || (q =? 2)
  end.

Definition build_repetition3_active_correction_circuit
    (logical_state : str) (error_qubit : option Z) : result Circuit :=
  if negb (is_logical_state logical_state) then Raise unsupported_state
  else if negb (allowed_error_qubit error_qubit)
  then Raise (ValueError "error_qubit must be None or one of 0, 1, 2.")
  else
    Ok (mkDemoCircuit 5 "repetition3_active"
          [("data", 3%nat); ("syndrome", 2%nat)]
          ((if str_eqb logical_state "1" then [x 0] else [])
             ++ [cx 0 1; cx 0 2]
             ++ (match error_qubit with
                 | Some q => [x (Z.to_nat q)]
                 | None => []
                 end)
             ++ [cx 0 3; cx 1 3; cx 1 4; cx 2 4]
             ++ [measure 3 "syndrome" 0; measure 4 "syndrome" 1; barrier]
             ++ map (fun '(syndrome_value, target_qubit) =>
                       if_test "syndrome" syndrome_value [x target_qubit])
                    (items _SYNDROME_TO_DATA)
             ++ [barrier]
             ++ [measure 0 "data" 0; measure 1 "data" 1;
                 measure 2 "data" 2])).

(** [bitstring[-3:]] *)
Definition last_three (bitstring : str) : str :=
  skipn (List.length bitstring - 3) bitstring.

(** [d.get(k, 0)] *)
Definition get_or_zero (k : str) (d : dict str Z) : Z :=
  match dict_get str_eqb k d with
  | Some v => v
  | None => 0
  end.

(** The body of the loop over [raw_counts.items()]. *)
Definition add_count (data_counts : dict str Z) (item : str * Z)
  : dict str Z :=
  let (bitstring, count) := item in
  let data_bits := last_three bitstring in
  dict_set str_eqb data_counts data_bits
           (get_or_zero data_bits data_counts + count).

Inductive raised : Type :=
| Exn (e : exn)
| ZeroDivisionError.

Inductive outcome (A : Type) : Type :=
| Returned (a : A)
| Raised (r : raised).
Arguments Returned {A} a.
Arguments Raised {A} r.

Inductive event : Type :=
| SimulatorRun (circuit : Circuit) (shots : Z)
| PrintSuccess (logical_state : str) (error_qubit : option Z) (success : Q)
| PrintCounts (data_counts : dict str Z).

Section WithSimulator.

Variable rng : Type.
Variable backend : Circuit -> Z -> rng -> dict str Z * rng.

Record world : Type := mkWorld {
  trace : list event;
  seed : rng
}.

Definition run_active_correction_demo (logical_state : str)
    (error_qubit : option Z) (shots : Z) (w : world)
  : world * outcome (dict str Z) :=
  match build_repetition3_active_correction_circuit logical_state
          error_qubit with
  | Raise e => (w, Raised (Exn e))
  | Ok circuit =>
      let (raw_counts, seed') := backend circuit shots (seed w) in
      let ran := trace w ++ [SimulatorRun circuit shots] in
      let data_counts := fold_left add_count (items raw_counts) [] in
      let ideal := if str_eqb logical_state "0" then lit "000"
                   else lit "111" in
      if shots =? 0 then (mkWorld ran seed', Raised ZeroDivisionError)
      else
        let success := true_div (get_or_zero ideal data_counts) shots in
        (mkWorld (ran ++ [PrintSuccess logical_state error_qubit success;
                          PrintCounts data_counts])
                 seed',
         Returned data_counts)
  end.

End WithSimulator.

Arguments mkWorld {rng} trace seed.
Arguments trace {rng} w.
Arguments seed {rng} w.

End active_correction_demo.

(** * Notions used to state the properties *)

Unset Implicit Arguments.

(** ** Positions of a key *)

Definition one : ascii := "1"%char.

(** [s[i] == "1"], false beyond the end of [s]. *)
Definition bit_at (s : str) (i : nat) : bool :=
  match nth_error s i with
  | Some c => Ascii.eqb c one
  | None => false
  end.

(** At least two positions of [s] hold the character ['1']. *)
Definition two_ones (s : str) : Prop :=
  exists i j : nat, (i < j)%nat /\ bit_at s i = true /\ bit_at s j = true.

(** The character ['0'] repeated. *)
Definition zeros (n : nat) : str := repeat "0"%char n.

Definition flip (c : ascii) : ascii :=
  if Ascii.eqb c "0" then "1"%char else "0"%char.

(** The key with the bit at index [i] flipped. *)
Fixpoint flip_at (i : nat) (key : str) : str :=
  match key with
  | [] => []
  | c :: t =>
      match i with
      | O => flip c :: t
      | S i' => c :: flip_at i' t
      end
  end.

(** Two of three. *)
Definition maj3 (a b c : bool) : bool := (a && b) || (a && c) || (b && c).

(** Block [b] of three consecutive positions, decided by two of three. *)
Definition block_majority (w : str) (b : nat) : bool :=
  maj3 (bit_at w (3 * b)) (bit_at w (3 * b + 1)) (bit_at w (3 * b + 2)).

(** The Shor decoder in the words of the specification, on the reversed
    key [w]: the majority of the three block majorities. *)
Definition hierarchical_majority (w : str) : bool :=
  maj3 (block_majority w 0) (block_majority w 1) (block_majority w 2).

(** The six votes in the words of the specification, on the reversed key
    [w]: row [r] gathers positions [3r], [3r+1], [3r+2] and column [k]
    gathers positions [k], [k+3], [k+6]. *)
Definition row_majority (w : str) (r : nat) : bool := block_majority w r.

Definition column_majority (w : str) (k : nat) : bool :=
  maj3 (bit_at w k) (bit_at w (k + 3)) (bit_at w (k + 6)).

Definition pooled_votes (w : str) : list bool :=
  map (row_majority w) (seq 0 3) ++ map (column_majority w) (seq 0 3).

Definition ones_among (votes : list bool) : Z :=
  Z.of_nat (List.length (filter (fun v => v) votes)).

(** ** Distances to the codeword tables *)

(** The number of positions where two words differ. *)
Definition hamming (a b : str) : Z :=
  sum (map (fun '(ch1, ch2) => if negb (Ascii.eqb ch1 ch2) then 1 else 0)
           (combine a b)).

(** [d] is the minimum distance from [w] to the codewords of [table]. *)
Definition min_distance (w : str) (table : list str) (d : Z) : Prop :=
  (exists cw, In cw table /\ hamming w cw = d)
  /\ forall cw, In cw table -> d <= hamming w cw.

(** The received word of a key. *)
Definition received (bitstring : str) : str :=
  slice_to steane7.n_physical (reversed bitstring).

Definition same_length_error : exn :=
  ValueError "Bitstrings must have the same length.".

(** One pass of the search, without its error branch. *)
Definition improve (w : str) (label : Z) (best : Z * Z) (cw : str)
  : Z * Z :=
  if hamming w cw <? fst best then (hamming w cw, label) else best.

(** The least distance from [w] to a table, computed. *)
Definition nearest_distance (w : str) (table : list str) : Z :=
  fst (fold_left (improve w 0) table (len w + 1, 0)).

(** A character of a measured key. *)
Definition is_bit (c : ascii) : Prop := c = "0"%char \/ c = "1"%char.

(** ** Sweeps *)

(** A builder checks its strength and does nothing else that can fail. *)
Definition checks_strength (noise_builder : Q -> result noise.NoiseModel) : Prop :=
  forall p,
    (noise.in_unit_interval p = true -> exists m, noise_builder p = Ok m)
    /\ (noise.in_unit_interval p = false ->
        exists msg, noise_builder p = Raise (ValueError msg)).

(** The decoder of [code] returns a rate on the counts the simulator gives
    for [circuit] with these shots, whatever the noise model and the state
    of the simulator. *)
Definition decodes_runs {rng : Type}
    (backend : QuantumCircuit -> noise.NoiseModel -> Z -> rng
               -> dict str Z * rng)
    (code : BaseCode) (logical_state : str) (shots : Z)
    (circuit : QuantumCircuit) : Prop :=
  forall noise_model s,
  exists r,
    logical_error_rate_from_counts code
      (fst (backend circuit noise_model shots s)) logical_state
    = Ok r.

(** The counts of successive simulator runs on [circuit], one for each
    noise model of the list, from the state [s] of the simulator on, and
    the state in which they leave it. *)
Fixpoint simulated {rng : Type}
    (backend : QuantumCircuit -> noise.NoiseModel -> Z -> rng
               -> dict str Z * rng)
    (circuit : QuantumCircuit) (shots : Z)
    (models : list noise.NoiseModel) (s : rng)
  : list (dict str Z) * rng :=
  match models with
  | [] => ([], s)
  | noise_model :: rest =>
      let out := backend circuit noise_model shots s in
      let later := simulated backend circuit shots rest (snd out) in
      (fst out :: fst later, snd later)
  end.

(** [results[p] = logical_error] for one point, and the mapping after these
    assignments for the strengths and rates of two lists, pair by pair in
    their order. *)
Definition record_rate (results : dict Q Q) (point : Q * Q) : dict Q Q :=
  dict_set Qeq_bool results (fst point) (snd point).

Definition record_rates (ps rates : list Q) : dict Q Q :=
  fold_left record_rate (combine ps rates) [].

(** The error with which the builder of a category of the sweep's table
    refuses a strength outside 0..1. *)
Definition range_error (noise_type : str) : exn :=
  ValueError (if str_eqb noise_type "amplitude_damping"
              then "Damping parameter gamma must be between 0 and 1."
              else "Probability p must be between 0 and 1.").

(** The keys of the result while the sweep goes on. *)
Definition remember_key (seen : list Q) (p : Q) : list Q :=
  if existsb (fun k => Qeq_bool k p) seen then seen else seen ++ [p].

(** The distinct strengths of a list, in order of first occurrence, and
    lists without a repeated strength. *)
Definition first_occurrences (ps : list Q) : list Q :=
  fold_left remember_key ps [].

Fixpoint pairwise_distinct (ps : list Q) : Prop :=
  match ps with
  | [] => True
  | p :: rest => Forall (fun q => ~ (p == q)%Q) rest /\ pairwise_distinct rest
  end.

(** ** Rates *)

(** What a decoder returns when it returns: [logical_out] is its rule for
    one key. *)
Definition rate_of (logical_out : str -> Z) (logical_state : str)
    (counts : dict str Z) : Q :=
  if sum (values counts) =? 0 then 0%Q
  else true_div (fold_left (tally logical_out (int_of_str logical_state))
                           (items counts) 0)
                (sum (values counts)).

(** The two passes of the Steane search on a received word, without their
    error branches, and the bit they give for a key. *)
Definition word_label (w : str) : Z :=
  snd (fold_left (improve w 1) steane7._ODD_CODEWORDS
         (fold_left (improve w 0) steane7._EVEN_CODEWORDS
            (Z.of_nat steane7.n_physical + 1, 0))).

Definition steane_bit (bitstring : str) : Z :=
  word_label (received bitstring).

(** Every frequency of a counts mapping multiplied by [c]. *)
Definition scale (c : Z) (counts : dict str Z) : dict str Z :=
  map (fun '(key, shots) => (key, c * shots)) counts.

(** Every bit of a key flipped. *)
Definition complement (key : str) : str := map flip key.

(** Each decoder of the repository returns a rate exactly for a logical
    state "0" or "1" and keys it accepts, and the rate is then that of its
    rule for one key, which answers 0 or 1. *)
Definition shaped (code : BaseCode) (logical_out : str -> Z)
    (accepts : str -> Prop) : Prop :=
  (forall key, logical_out key = 0 \/ logical_out key = 1)
  /\ forall counts logical_state r,
      logical_error_rate_from_counts code counts logical_state = Ok r
      <-> (In logical_state [lit "0"; lit "1"]
           /\ Forall accepts (keys counts)
           /\ r = rate_of logical_out logical_state counts).

(** All words of [n] characters '0' and '1'. *)
Fixpoint bit_words (n : nat) : list str :=
  match n with
  | O => [[]]
  | S m => map (cons "0"%char) (bit_words m)
             ++ map (cons "1"%char) (bit_words m)
  end.

(** ** Circuits *)

(** A gate on qubits of a register of [n] qubits; a measurement is no
    gate. *)
Definition gate_within (n : nat) (i : instruction) : Prop :=
  match i with
  | X q | H q => (q < n)%nat
  | CX control target =>
      (control < n)%nat /\ (target < n)%nat /\ control <> target
  | Measure _ _ => False
  end.

(** The circuit has [n] qubits and [n] classical bits; it applies gates
    within the register and then measures qubit [q] into classical bit [q],
    for [q] from 0 to [n - 1]. *)
Definition measures_every_qubit (c : QuantumCircuit) (n : nat) : Prop :=
  num_qubits c = n /\ num_clbits c = n
  /\ exists gates,
      data c = gates ++ map (fun q => Measure q q) (seq 0 n)
      /\ Forall (gate_within n) gates.

(** ** Sweep points *)

(** What one completed sweep point leaves in the trace: the simulator run
    with the point's noise model, then the printed line with its rate. *)
Definition point_events (circuit : QuantumCircuit) (shots : Z)
    (code_name : string) (noise_type : str)
    (point : Q * noise.NoiseModel * Q) : list sweep.event :=
  let '(p, noise_model, logical_error) := point in
  [sweep.SimulatorRun circuit noise_model shots;
   sweep.Print code_name noise_type p logical_error].

(** The circuit of the single-qubit baseline. *)
Definition baseline_circuit (logical_state : str) : QuantumCircuit :=
  mkCircuit 1 1 ((if str_eqb logical_state "1" then [X 0] else [])
                   ++ [Measure 0 0]).

(** The frequencies of the keys other than [expected], added up. *)
Definition wrong_shots (expected : str) (counts : dict str Z) : Z :=
  sum (map snd (filter (fun '(bitstring, shot) =>
                          negb (str_eqb bitstring expected))
                       (items counts))).

(** ** Marginal counts of the demonstration *)

(** The frequencies of the raw keys that end in [data_bits], added up. *)
Definition suffix_total (data_bits : str) (raw : dict str Z) : Z :=
  sum (map snd
         (filter (fun '(bitstring, _) =>
                    str_eqb (active_correction_demo.last_three bitstring)
                            data_bits)
                 raw)).

(** * Properties *)

(** ** Counting and positions *)

Lemma str_count_nonneg (c : ascii) (s : str) : 0 <= str_count c s.
Proof.
  induction s as [|x t IH]; simpl; [lia|].
  destruct (Ascii.eqb x c); lia.
Qed.

Lemma str_count_pos (s : str) :
  1 <= str_count one s <-> exists i, bit_at s i = true.
Proof.
  induction s as [|x t IH]; simpl.
  - split; [lia|]. intros [i Hi]. destruct i; discriminate.
  - split.
    + intros Hc. destruct (Ascii.eqb x one) eqn:E.
      * exists 0%nat. unfold bit_at. simpl. exact E.
      * destruct IH as [IH _]. destruct IH as [i Hi]; [lia|].
        exists (S i). exact Hi.
    + intros [i Hi]. destruct i as [|i].
      * unfold bit_at in Hi. simpl in Hi. rewrite Hi.
        pose proof (str_count_nonneg one t). lia.
      * assert (1 <= str_count one t) by (apply IH; exists i; exact Hi).
        destruct (Ascii.eqb x one); lia.
Qed.

Lemma str_count_two (s : str) : 2 <= str_count one s <-> two_ones s.
Proof.
  induction s as [|x t IH]; simpl.
  - split; [lia|]. intros (i & j & _ & Hi & _). destruct i; discriminate.
  - split.
    + intros Hc. destruct (Ascii.eqb x one) eqn:E.
      * assert (Ht : 1 <= str_count one t) by lia.
        apply str_count_pos in Ht. destruct Ht as [j Hj].
        exists 0%nat, (S j). repeat split; [lia| |exact Hj].
        unfold bit_at. simpl. exact E.
      * destruct IH as [IH _]. destruct IH as (i & j & Hij & Hi & Hj); [lia|].
        exists (S i), (S j). repeat split; [lia|exact Hi|exact Hj].
    + intros (i & j & Hij & Hi & Hj).
      destruct j as [|j]; [lia|].
      destruct i as [|i].
      * unfold bit_at in Hi. simpl in Hi. rewrite Hi.
        assert (1 <= str_count one t)
          by (apply str_count_pos; exists j; exact Hj).
        lia.
      * assert (2 <= str_count one t).
        { apply IH. exists i, j. repeat split; [lia|exact Hi|exact Hj]. }
        destruct (Ascii.eqb x one); lia.
Qed.

(** ** The repetition code *)

(** C4. For every outcome key -- in particular every 3-bit key -- the
    decoder of RepetitionCode3 outputs logical ONE iff at least two positions
    of the key hold '1', and ZERO otherwise; on the counts
    {"000": 900, "111": 100} the logical error rate is exactly 1/10 when
    "0" is expected and exactly 9/10 when "1" is expected. *)
Theorem repetition3_majority_and_rates :
  (forall key : str,
      (repetition3.logical_out key = 1 <-> two_ones key)
      /\ (repetition3.logical_out key = 0 <-> ~ two_ones key))
  /\ logical_error_rate_from_counts RepetitionCode3
       [(lit "000", 900); (lit "111", 100)] "0" = Ok (1 # 10)%Q
  /\ logical_error_rate_from_counts RepetitionCode3
       [(lit "000", 900); (lit "111", 100)] "1" = Ok (9 # 10)%Q.
Proof.
  split; [|split; vm_compute; reflexivity].
  intros key. unfold repetition3.logical_out. fold one.
  pose proof (str_count_two key) as Htwo.
  destruct (2 <=? str_count one key) eqn:E.
  - apply Z.leb_le in E. split; split; intros; try tauto; try lia.
  - apply Z.leb_gt in E. split; split; try discriminate; try reflexivity.
    + intros Hc. apply Htwo in Hc. lia.
    + intros _ Hc. apply Htwo in Hc. lia.
Qed.

(** ** The Shor code *)

Lemma shor9_rate_depends_on_logical_out (k1 k2 : str) (shots : Z)
    (logical_state : str) :
  shor9.logical_out k1 = shor9.logical_out k2 ->
  logical_error_rate_from_counts ShorCode9 [(k1, shots)] logical_state
  = logical_error_rate_from_counts ShorCode9 [(k2, shots)] logical_state.
Proof.
  intros E. simpl. unfold shor9.logical_error_rate_from_counts, items.
  simpl fold_left. unfold tally. rewrite E. reflexivity.
Qed.

Lemma shor9_logical_out_blocks (key : str) :
  (9 <= List.length key)%nat ->
  shor9.logical_out key
  = if hierarchical_majority (reversed key) then 1 else 0.
Proof.
  intros Hlen. unfold shor9.logical_out.
  assert (Hw : (9 <= List.length (reversed key))%nat)
    by (unfold reversed; rewrite length_rev; exact Hlen).
  destruct (reversed key) as [|c0 [|c1 [|c2 [|c3 [|c4 [|c5 [|c6 [|c7 [|c8 rest]]]]]]]]];
    simpl in Hw; try lia.
  clear Hw Hlen.
  unfold hierarchical_majority, block_majority, bit_at, shor9.block_value,
    slice.
  cbn [map firstn skipn Nat.sub Nat.add Nat.mul nth_error str_count].
  fold one.
  destruct (Ascii.eqb c0 one), (Ascii.eqb c1 one), (Ascii.eqb c2 one),
    (Ascii.eqb c3 one), (Ascii.eqb c4 one), (Ascii.eqb c5 one),
    (Ascii.eqb c6 one), (Ascii.eqb c7 one), (Ascii.eqb c8 one);
    reflexivity.
Qed.

(** C3. Flipping exactly one bit of the all-zero 9-bit key, at any of the 9
    positions, does not change what ShorCode9's decoder produces: the
    logical bit is that of the all-zero key, namely 0, and so is the logical
    error rate such a key yields.  The decoder is the two-level vote: on a
    key of 9 characters it outputs the 2-of-3 majority of the 2-of-3
    majorities of the three contiguous blocks of the reversed key. *)
Theorem shor9_single_flip_corrected (i : nat) (Hi : (i < 9)%nat) :
  shor9.logical_out (flip_at i (zeros 9)) = shor9.logical_out (zeros 9)
  /\ shor9.logical_out (zeros 9) = 0
  /\ (forall (shots : Z) (logical_state : str),
         logical_error_rate_from_counts ShorCode9
           [(flip_at i (zeros 9), shots)] logical_state
         = logical_error_rate_from_counts ShorCode9
             [(zeros 9, shots)] logical_state)
  /\ (forall key : str,
         len key = 9 ->
         shor9.logical_out key
         = if hierarchical_majority (reversed key) then 1 else 0).
Proof.
  assert (E : shor9.logical_out (flip_at i (zeros 9))
              = shor9.logical_out (zeros 9)).
  { do 9 (destruct i as [|i]; [vm_compute; reflexivity|]). lia. }
  split; [exact E|]. split; [vm_compute; reflexivity|]. split.
  - intros shots logical_state.
    apply shor9_rate_depends_on_logical_out. exact E.
  - intros key Hlen. apply shor9_logical_out_blocks.
    unfold len in Hlen. lia.
Qed.

Lemma shor9_single_flip_corrected_witness :
  (4 < 9)%nat
  /\ shor9.logical_out (lit "000010000") = shor9.logical_out (zeros 9).
Proof.
  split; [lia|].
  exact (proj1 (shor9_single_flip_corrected 4 ltac:(lia))).
Defined.

(** ** The rotated surface code *)

Lemma surface_logical_out_votes (key : str) :
  (9 <= List.length key)%nat ->
  rotated_surface_d3.logical_out key
  = if 3 <=? ones_among (pooled_votes (reversed key)) then 1 else 0.
Proof.
  intros Hlen. unfold rotated_surface_d3.logical_out.
  assert (Hw : (9 <= List.length (reversed key))%nat)
    by (unfold reversed; rewrite length_rev; exact Hlen).
  destruct (reversed key) as [|c0 [|c1 [|c2 [|c3 [|c4 [|c5 [|c6 [|c7 [|c8 rest]]]]]]]]];
    simpl in Hw; try lia.
  clear Hw Hlen.
  unfold pooled_votes, row_majority, column_majority, block_majority, bit_at,
    rotated_surface_d3.row_vote, rotated_surface_d3.col_vote,
    slice, slice_step, slice_to.
  cbn [seq map firstn skipn every Nat.sub Nat.add Nat.mul nth_error app
       str_count].
  fold one.
  destruct (Ascii.eqb c0 one), (Ascii.eqb c1 one), (Ascii.eqb c2 one),
    (Ascii.eqb c3 one), (Ascii.eqb c4 one), (Ascii.eqb c5 one),
    (Ascii.eqb c6 one), (Ascii.eqb c7 one), (Ascii.eqb c8 one);
    reflexivity.
Qed.

Lemma surface_data_bits_only (key key' : str) :
  slice_to 9 (reversed key') = slice_to 9 (reversed key) ->
  rotated_surface_d3.logical_out key' = rotated_surface_d3.logical_out key.
Proof.
  intros E. unfold rotated_surface_d3.logical_out. rewrite E. reflexivity.
Qed.

Lemma surface_all_zero_data (ancilla : str) :
  rotated_surface_d3.logical_out (ancilla ++ zeros 9) = 0.
Proof.
  rewrite surface_data_bits_only with (key := zeros 9).
  - vm_compute. reflexivity.
  - unfold reversed, slice_to. rewrite rev_app_distr. reflexivity.
Qed.

(** C5. For every outcome key of at least 9 characters, the decoder of
    RotatedSurfaceCodeD3 outputs ONE iff at least 3 of the 6 pooled votes
    are 1 (and ZERO otherwise), the votes being the 2-of-3 majorities of the
    rows (0,1,2), (3,4,5), (6,7,8) and of the columns (k, k+3, k+6) of the
    reversed key; a key that has the same first 9 reversed characters
    decodes alike, and the all-zero data bits decode to ZERO whatever the
    ancilla bits in front of them are. *)
Theorem surface_row_column_votes (key : str)
    (Hlen : 9 <= len key) :
  (rotated_surface_d3.logical_out key = 1
   <-> 3 <= ones_among (pooled_votes (reversed key)))
  /\ (rotated_surface_d3.logical_out key = 0
      <-> ones_among (pooled_votes (reversed key)) < 3)
  /\ (forall key' : str,
         slice_to 9 (reversed key') = slice_to 9 (reversed key) ->
         rotated_surface_d3.logical_out key'
         = rotated_surface_d3.logical_out key)
  /\ (forall ancilla : str,
         rotated_surface_d3.logical_out (ancilla ++ zeros 9) = 0).
Proof.
  assert (Hn : (9 <= List.length key)%nat) by (unfold len in Hlen; lia).
  pose proof (@surface_logical_out_votes key Hn) as Hv.
  split; [|split; [|split]].
  - rewrite Hv.
    destruct (3 <=? ones_among (pooled_votes (reversed key))) eqn:E;
      [apply Z.leb_le in E|apply Z.leb_gt in E];
      split; intros; try lia; try discriminate; reflexivity.
  - rewrite Hv.
    destruct (3 <=? ones_among (pooled_votes (reversed key))) eqn:E;
      [apply Z.leb_le in E|apply Z.leb_gt in E];
      split; intros; try lia; try discriminate; reflexivity.
  - intros key'. apply surface_data_bits_only.
  - apply surface_all_zero_data.
Qed.

Lemma surface_row_column_votes_witness :
  9 <= len (lit "10101010000000111")
  /\ (rotated_surface_d3.logical_out (lit "10101010000000111") = 1
      <-> 3 <= ones_among (pooled_votes
                             (reversed (lit "10101010000000111")))).
Proof.
  split; [vm_compute; discriminate|].
  exact (proj1 (@surface_row_column_votes (lit "10101010000000111")
                  ltac:(vm_compute; discriminate))).
Defined.

(** ** The Steane code *)

Module SteaneFacts.
Import steane7.

Lemma fold_add_shift (xs : list Z) (a : Z) :
  fold_left Z.add xs a = a + fold_left Z.add xs 0.
Proof.
  revert a. induction xs as [|x t IH]; intros a; simpl; [lia|].
  rewrite (IH (a + x)), (IH x). lia.
Qed.

Lemma hamming_bounds (a b : str) : 0 <= hamming a b <= len a.
Proof.
  unfold hamming, sum, len. revert b.
  induction a as [|x a IH]; intros [|y b];
    cbn [combine map fold_left List.length];
    rewrite ?Nat2Z.inj_succ; try lia.
  rewrite fold_add_shift. specialize (IH b).
  destruct (Ascii.eqb x y); cbn [negb]; lia.
Qed.

Lemma hamming_distance_ok (a b : str) :
  len a = len b -> _hamming_distance a b = Ok (hamming a b).
Proof.
  intros E. unfold _hamming_distance. rewrite E, Z.eqb_refl. reflexivity.
Qed.

Lemma codewords_length :
  Forall (fun cw => len cw = 7) (_EVEN_CODEWORDS ++ _ODD_CODEWORDS).
Proof. repeat constructor. Qed.

Lemma received_length (bitstring : str) :
  7 <= len bitstring -> len (received bitstring) = 7.
Proof.
  unfold received, slice_to, reversed, len, n_physical.
  rewrite length_firstn, length_rev. lia.
Qed.

Lemma nearest_fold (w : str) (label : Z) (table : list str) :
  Forall (fun cw => len cw = len w) table ->
  forall best,
    nearest w label table best
    = Ok (fold_left (improve w label) table best).
Proof.
  induction 1 as [|cw rest Hcw _ IH]; intros best; simpl; [reflexivity|].
  rewrite hamming_distance_ok by (symmetry; exact Hcw).
  simpl. apply IH.
Qed.

(** What a pass leaves in [(best_dist, best_logical)]: either nothing
    changed and no codeword of the table is closer than [best_dist], or
    the label is the pass's and the distance is the minimum over the
    table, strictly below the old [best_dist]. *)
Lemma improve_fold (w : str) (label : Z) (table : list str) :
  forall bd bl,
    (fold_left (improve w label) table (bd, bl) = (bd, bl)
     /\ forall cw, In cw table -> bd <= hamming w cw)
    \/ (snd (fold_left (improve w label) table (bd, bl)) = label
        /\ fst (fold_left (improve w label) table (bd, bl)) < bd
        /\ min_distance w table
             (fst (fold_left (improve w label) table (bd, bl)))).
Proof.
  induction table as [|cw rest IH]; intros bd bl.
  - left. split; [reflexivity|]. intros cw [].
  - cbn [fold_left].
    replace (improve w label (bd, bl) cw)
      with (if hamming w cw <? bd then (hamming w cw, label) else (bd, bl))
      by reflexivity.
    destruct (hamming w cw <? bd) eqn:E.
    + apply Z.ltb_lt in E. right.
      destruct (IH (hamming w cw) label) as [[Hr Hmin]|(Hl & Hlt & Hmin)].
      * rewrite Hr. simpl. split; [reflexivity|]. split; [exact E|].
        split.
        -- exists cw. split; [left; reflexivity|reflexivity].
        -- intros cw' [<-|Hin]; [lia|]. apply Hmin. exact Hin.
      * split; [exact Hl|]. split; [lia|].
        destruct Hmin as [(c & Hc & Hd) Hle]. split.
        -- exists c. split; [right; exact Hc|exact Hd].
        -- intros cw' [<-|Hin]; [lia|]. apply Hle. exact Hin.
    + apply Z.ltb_ge in E.
      destruct (IH bd bl) as [[Hr Hmin]|(Hl & Hlt & Hmin)].
      * left. split; [exact Hr|].
        intros cw' [<-|Hin]; [exact E|]. apply Hmin. exact Hin.
      * right. split; [exact Hl|]. split; [exact Hlt|].
        destruct Hmin as [(c & Hc & Hd) Hle]. split.
        -- exists c. split; [right; exact Hc|exact Hd].
        -- intros cw' [<-|Hin]; [lia|]. apply Hle. exact Hin.
Qed.

Lemma min_distance_unique (w : str) (table : list str) (d d' : Z) :
  min_distance w table d -> min_distance w table d' -> d = d'.
Proof.
  intros [(c & Hc & Hd) Hle] [(c' & Hc' & Hd') Hle'].
  specialize (Hle c' Hc'). specialize (Hle' c Hc). lia.
Qed.

(** A key shorter than 7 characters is refused. *)
Lemma decode_short (bitstring : str) :
  len bitstring < 7 ->
  _decode_logical_bit bitstring = Raise (too_short bitstring).
Proof.
  intros Hlen. unfold _decode_logical_bit.
  replace (len (reversed bitstring) <? Z.of_nat n_physical) with true;
    [reflexivity|].
  symmetry. apply Z.ltb_lt. unfold reversed, len, n_physical in *.
  rewrite length_rev. lia.
Qed.

(** On a key of at least 7 characters both passes run to their end. *)
Lemma decode_fold (bitstring : str) :
  7 <= len bitstring ->
  _decode_logical_bit bitstring
  = Ok (snd (fold_left (improve (received bitstring) 1) _ODD_CODEWORDS
               (fold_left (improve (received bitstring) 0) _EVEN_CODEWORDS
                  (Z.of_nat n_physical + 1, 0)))).
Proof.
  intros Hlen.
  pose proof (received_length bitstring Hlen) as Hw.
  pose proof codewords_length as Hcw. apply Forall_app in Hcw.
  destruct Hcw as [Heven Hodd].
  unfold _decode_logical_bit.
  replace (len (reversed bitstring) <? Z.of_nat n_physical) with false
    by (symmetry; apply Z.ltb_ge; unfold reversed, len, n_physical in *;
        rewrite length_rev; lia).
  fold (received bitstring).
  set (w := received bitstring) in *.
  assert (He : Forall (fun cw => len cw = len w) _EVEN_CODEWORDS)
    by (eapply Forall_impl; [|exact Heven]; simpl; intros; lia).
  assert (Ho : Forall (fun cw => len cw = len w) _ODD_CODEWORDS)
    by (eapply Forall_impl; [|exact Hodd]; simpl; intros; lia).
  rewrite (nearest_fold w 0 _EVEN_CODEWORDS He (Z.of_nat n_physical + 1, 0)).
  cbn [bind].
  rewrite (nearest_fold w 1 _ODD_CODEWORDS Ho).
  reflexivity.
Qed.

(** The decoder on a key of at least 7 characters: the label is ONE
    exactly when the ONE set is strictly closer than the ZERO set. *)
Lemma decode_nearest (bitstring : str) (d0 d1 : Z) :
  7 <= len bitstring ->
  min_distance (received bitstring) _EVEN_CODEWORDS d0 ->
  min_distance (received bitstring) _ODD_CODEWORDS d1 ->
  _decode_logical_bit bitstring = Ok (if d1 <? d0 then 1 else 0).
Proof.
  intros Hlen H0 H1.
  rewrite (decode_fold bitstring Hlen). f_equal.
  set (w := received bitstring) in *.
  destruct (improve_fold w 0 _EVEN_CODEWORDS (Z.of_nat n_physical + 1) 0)
    as [[_ Hge]|(Hl & Hlt & Hmin)].
  { exfalso. destruct H0 as [(c & Hc & Hd) _]. specialize (Hge c Hc).
    pose proof (hamming_bounds w c) as Hb.
    pose proof (received_length bitstring Hlen) as Hrl.
    fold w in Hrl. unfold n_physical in Hge. lia. }
  remember (fold_left (improve w 0) _EVEN_CODEWORDS
              (Z.of_nat n_physical + 1, 0)) as r eqn:Er.
  clear Er. destruct r as [bd bl]. simpl in Hl, Hlt, Hmin. subst bl.
  assert (bd = d0) by (eapply min_distance_unique; eassumption). subst bd.
  destruct (improve_fold w 1 _ODD_CODEWORDS d0 0)
    as [[Hr Hge]|(Hl & Hlt' & Hmin')].
  - rewrite Hr. simpl. destruct H1 as [(c & Hc & Hd) _].
    specialize (Hge c Hc).
    destruct (d1 <? d0) eqn:E; [apply Z.ltb_lt in E; lia|reflexivity].
  - rewrite Hl.
    assert (fst (fold_left (improve w 1) _ODD_CODEWORDS (d0, 0)) = d1)
      by (eapply min_distance_unique; eassumption).
    destruct (d1 <? d0) eqn:E; [reflexivity|apply Z.ltb_ge in E; lia].
Qed.

(** The loop over the items: it stops at the first key shorter than 7
    characters, and runs to its end when there is none. *)
(** The first short key ends the count, whatever comes behind it. *)
Lemma count_errors_first_short (expected_logical : Z)
    (before after : list (str * Z)) (key : str) (shots : Z) :
  Forall (fun k => 7 <= len k) (keys before) ->
  len key < 7 ->
  forall logical_errors,
    count_errors expected_logical (before ++ (key, shots) :: after)
                 logical_errors
    = Raise (too_short key).
Proof.
  intros Hpre Hkey.
  induction before as [|[bitstring n] before IH]; intros acc;
    cbn [app count_errors].
  - rewrite (decode_short key Hkey). reflexivity.
  - inversion Hpre as [|? ? Hhd Htl]; subst. simpl in Hhd.
    rewrite (decode_fold bitstring Hhd). cbn [bind].
    apply IH. exact Htl.
Qed.

Lemma first_short_key (its : list (str * Z)) :
  Exists (fun key => len key < 7) (keys its) ->
  exists before key shots after,
    its = before ++ (key, shots) :: after
    /\ Forall (fun k => 7 <= len k) (keys before)
    /\ len key < 7.
Proof.
  induction its as [|[bitstring n] rest IH]; intros Hex.
  - inversion Hex.
  - destruct (Z.lt_ge_cases (len bitstring) 7) as [Hs|Hl].
    + exists [], bitstring, n, rest.
      split; [reflexivity|]. split; [constructor|exact Hs].
    + inversion Hex as [? ? Hhd|? ? Htl]; subst; [simpl in Hhd; lia|].
      destruct (IH Htl) as (before & key & shots & after & E & Hpre & Hk).
      exists ((bitstring, n) :: before), key, shots, after.
      split; [rewrite E; reflexivity|].
      split; [constructor; [exact Hl|exact Hpre]|exact Hk].
Qed.

Lemma count_errors_total (expected_logical : Z) (its : list (str * Z)) :
  Forall (fun key => 7 <= len key) (keys its) ->
  forall logical_errors,
  exists n, count_errors expected_logical its logical_errors = Ok n.
Proof.
  induction its as [|[bitstring shots] rest IH]; intros Hall acc.
  - exists acc. reflexivity.
  - cbn [count_errors]. inversion Hall as [|? ? Hhd Htl]; subst.
    simpl in Hhd. rewrite (decode_fold bitstring Hhd). cbn [bind].
    apply IH. exact Htl.
Qed.

(** Whatever the decoder raises, it is not the length error of
    [_hamming_distance]. *)
Lemma decode_never_same_length_error (bitstring : str) :
  _decode_logical_bit bitstring <> Raise same_length_error.
Proof.
  destruct (Z.lt_ge_cases (len bitstring) 7) as [Hs|Hl].
  - rewrite (decode_short bitstring Hs). unfold too_short, same_length_error.
    simpl. discriminate.
  - rewrite (decode_fold bitstring Hl). discriminate.
Qed.

Lemma count_errors_never_same_length_error (expected_logical : Z)
    (its : list (str * Z)) :
  forall logical_errors,
    count_errors expected_logical its logical_errors
    <> Raise same_length_error.
Proof.
  induction its as [|[bitstring shots] rest IH]; intros acc.
  - discriminate.
  - cbn [count_errors].
    pose proof (decode_never_same_length_error bitstring) as Hd.
    destruct (_decode_logical_bit bitstring) as [b|e]; cbn [bind].
    + apply IH.
    + intros E. apply Hd. exact E.
Qed.

End SteaneFacts.

(** C2. When the received word of a key (the first 7 characters of the
    reversed key) is as far from its nearest ONE-set codeword as from its
    nearest ZERO-set codeword, SteaneCode7 decodes the key to 0: the ZERO
    set is searched first and the label changes only on a strictly smaller
    distance. *)
Theorem steane_tie_resolves_to_zero (bitstring : str) (d : Z)
    (Hlen : 7 <= len bitstring)
    (Hzero : min_distance (received bitstring)
               steane7._EVEN_CODEWORDS d)
    (Hone : min_distance (received bitstring)
              steane7._ODD_CODEWORDS d) :
  steane7._decode_logical_bit bitstring = Ok 0.
Proof.
  rewrite (SteaneFacts.decode_nearest bitstring d d Hlen Hzero Hone).
  rewrite Z.ltb_irrefl. reflexivity.
Qed.

Lemma steane_tie_resolves_to_zero_witness :
  steane7._decode_logical_bit (lit "2222222") = Ok 0.
Proof.
  apply (steane_tie_resolves_to_zero (lit "2222222") 7).
  - vm_compute. discriminate.
  - split.
    + exists (lit "0000000"). split; [left; reflexivity|vm_compute; reflexivity].
    + intros cw Hin. simpl in Hin.
      repeat (destruct Hin as [<-|Hin]; [vm_compute; discriminate|]).
      destruct Hin.
  - split.
    + exists (lit "1111111"). split; [left; reflexivity|vm_compute; reflexivity].
    + intros cw Hin. simpl in Hin.
      repeat (destruct Hin as [<-|Hin]; [vm_compute; discriminate|]).
      destruct Hin.
Defined.

(** C10. For a key of at least 7 characters the received word has exactly
    7 characters, as has every codeword of both tables, so each call of
    [_hamming_distance] made by the decoder returns a distance and the
    decoder returns a bit; and on any key and any counts whatever, neither
    [_decode_logical_bit] nor [logical_error_rate_from_counts] raises the
    "Bitstrings must have the same length." error. *)
Theorem steane_length_error_unreachable (bitstring : str)
    (Hlen : 7 <= len bitstring) :
  len (received bitstring) = 7
  /\ Forall (fun cw => len cw = 7)
            (steane7._EVEN_CODEWORDS ++ steane7._ODD_CODEWORDS)
  /\ (forall cw,
         In cw (steane7._EVEN_CODEWORDS ++ steane7._ODD_CODEWORDS) ->
         steane7._hamming_distance (received bitstring) cw
         = Ok (hamming (received bitstring) cw))
  /\ (exists b, steane7._decode_logical_bit bitstring = Ok b)
  /\ (forall key,
         steane7._decode_logical_bit key
         <> Raise same_length_error)
  /\ (forall counts logical_state,
         logical_error_rate_from_counts SteaneCode7 counts logical_state
         <> Raise same_length_error).
Proof.
  pose proof (SteaneFacts.received_length bitstring Hlen) as Hw.
  pose proof SteaneFacts.codewords_length as Hcw.
  split; [exact Hw|]. split; [exact Hcw|]. split; [|split; [|split]].
  - intros cw Hin. apply SteaneFacts.hamming_distance_ok.
    rewrite Forall_forall in Hcw. rewrite (Hcw cw Hin). exact Hw.
  - eexists. apply (SteaneFacts.decode_fold bitstring Hlen).
  - apply SteaneFacts.decode_never_same_length_error.
  - intros counts logical_state. simpl.
    unfold steane7.logical_error_rate_from_counts.
    destruct (negb (is_logical_state logical_state)); [discriminate|].
    pose proof (SteaneFacts.count_errors_never_same_length_error
                  (int_of_str logical_state) (items counts) 0) as Hc.
    destruct (steane7.count_errors (int_of_str logical_state)
                (items counts) 0) as [n|e]; cbn [bind].
    + destruct (sum (values counts) =? 0); discriminate.
    + intros E. apply Hc. injection E as ->. reflexivity.
Qed.

Lemma steane_length_error_unreachable_witness :
  7 <= len (lit "0110100")
  /\ len (received (lit "0110100")) = 7.
Proof.
  split; [vm_compute; discriminate|].
  exact (proj1 (steane_length_error_unreachable (lit "0110100")
                  ltac:(vm_compute; discriminate))).
Defined.

(** The two tables form the [7,4,3] Hamming code, which is perfect: a word
    of seven characters '0' and '1' is never as close to one table as to the
    other, so only keys with other characters can tie. *)

Lemma min_distance_nearest (w : str) (table : list str) (d : Z) :
  min_distance w table d -> d = nearest_distance w table.
Proof.
  intros Hd. unfold nearest_distance.
  destruct (SteaneFacts.improve_fold w 0 table (len w + 1) 0)
    as [[_ Hge]|(_ & _ & Hmin)].
  - exfalso. destruct Hd as [(c & Hc & Hdc) _]. specialize (Hge c Hc).
    pose proof (SteaneFacts.hamming_bounds w c). lia.
  - eapply SteaneFacts.min_distance_unique; eassumption.
Qed.

Remark steane_no_binary_tie (w : str) (d0 d1 : Z) :
  List.length w = 7%nat ->
  Forall is_bit w ->
  min_distance w steane7._EVEN_CODEWORDS d0 ->
  min_distance w steane7._ODD_CODEWORDS d1 ->
  d0 <> d1.
Proof.
  intros Hlen Hbits H0 H1.
  apply min_distance_nearest in H0. apply min_distance_nearest in H1.
  subst d0 d1.
  destruct w as [|c0 [|c1 [|c2 [|c3 [|c4 [|c5 [|c6 [|c7 rest]]]]]]]];
    try discriminate Hlen.
  clear Hlen.
  repeat match goal with
         | H : Forall _ (_ :: _) |- _ => inversion H; clear H; subst
         end.
  repeat match goal with
         | H : is_bit _ |- _ => destruct H; subst
         end;
    vm_compute; discriminate.
Qed.

(** ** Sums and quotients of frequencies *)

Module RateFacts.

Lemma sum_shift (xs : list Z) (a : Z) :
  fold_left Z.add xs a = a + sum xs.
Proof. apply SteaneFacts.fold_add_shift. Qed.

Lemma sum_cons (x : Z) (xs : list Z) : sum (x :: xs) = x + sum xs.
Proof. unfold sum. cbn [fold_left]. rewrite sum_shift. unfold sum. lia. Qed.

Section Tally.
Variable logical_out : str -> Z.
Variable expected : Z.

Local Abbreviation errors := (fold_left (tally logical_out expected)).

Lemma tally_shift (its : list (str * Z)) (acc : Z) :
  errors its acc = acc + errors its 0.
Proof.
  revert acc. induction its as [|[key shots] rest IH]; intros acc;
    cbn [fold_left]; [lia|].
  rewrite (IH (tally logical_out expected acc (key, shots))),
    (IH (tally logical_out expected 0 (key, shots))).
  unfold tally. destruct (negb (logical_out key =? expected)); lia.
Qed.

Lemma tally_cons (key : str) (shots : Z) (its : list (str * Z)) :
  errors ((key, shots) :: its) 0
  = (if logical_out key =? expected then 0 else shots) + errors its 0.
Proof.
  cbn [fold_left]. rewrite tally_shift. unfold tally.
  destruct (logical_out key =? expected); cbn [negb]; lia.
Qed.

Lemma tally_bounds (its : list (str * Z)) :
  Forall (fun shots => 0 <= shots) (values its) ->
  0 <= errors its 0 <= sum (values its).
Proof.
  unfold values. induction its as [|[key shots] rest IH]; intros Hnn.
  - cbn. lia.
  - cbn [map snd] in *. inversion Hnn as [|? ? Hs Hrest]; subst.
    rewrite tally_cons, sum_cons. specialize (IH Hrest).
    destruct (logical_out key =? expected); lia.
Qed.

Lemma tally_permutation (its its' : list (str * Z)) :
  Permutation its its' -> errors its 0 = errors its' 0.
Proof.
  induction 1 as [|[k s] l l' _ IH|[k1 s1] [k2 s2] l|l l' l'' _ IH1 _ IH2].
  - reflexivity.
  - rewrite !tally_cons, IH. reflexivity.
  - rewrite !tally_cons. lia.
  - rewrite IH1. exact IH2.
Qed.

Lemma tally_scale (c : Z) (its : list (str * Z)) :
  errors (scale c its) 0 = c * errors its 0.
Proof.
  induction its as [|[key shots] rest IH]; [cbn; lia|].
  change (scale c ((key, shots) :: rest))
    with ((key, c * shots) :: scale c rest).
  rewrite !tally_cons, IH.
  destruct (logical_out key =? expected); lia.
Qed.

End Tally.

Lemma tally_complement (logical_out : str -> Z) (its : list (str * Z)) :
  (forall key, logical_out key = 0 \/ logical_out key = 1) ->
  fold_left (tally logical_out 0) its 0
  + fold_left (tally logical_out 1) its 0
  = sum (values its).
Proof.
  intros Hbit. unfold values.
  induction its as [|[key shots] rest IH]; [reflexivity|].
  cbn [map snd]. rewrite !tally_cons, sum_cons.
  destruct (Hbit key) as [E|E]; rewrite E; cbn [Z.eqb Pos.eqb]; lia.
Qed.

Lemma sum_permutation (xs ys : list Z) : Permutation xs ys -> sum xs = sum ys.
Proof.
  induction 1 as [|x l l' _ IH|x y l|l l' l'' _ IH1 _ IH2].
  - reflexivity.
  - rewrite !sum_cons, IH. reflexivity.
  - rewrite !sum_cons. lia.
  - rewrite IH1. exact IH2.
Qed.

Lemma sum_scale (c : Z) (its : list (str * Z)) :
  sum (values (scale c its)) = c * sum (values its).
Proof.
  unfold values. induction its as [|[key shots] rest IH]; [cbn; lia|].
  change (scale c ((key, shots) :: rest))
    with ((key, c * shots) :: scale c rest).
  cbn [map snd]. rewrite !sum_cons, IH. lia.
Qed.

Lemma keys_scale (c : Z) (its : list (str * Z)) :
  keys (scale c its) = keys its.
Proof.
  unfold keys, scale. rewrite map_map. apply map_ext. intros [k s].
  reflexivity.
Qed.

(** The exact quotient of two ints. *)
Lemma true_div_bounds (a b : Z) :
  0 <= a <= b -> b <> 0 -> (0 <= true_div a b <= 1)%Q.
Proof.
  intros Hab Hb. unfold true_div. rewrite Qred_correct.
  destruct b as [|b|b]; try lia.
  unfold Qle, Qdiv, Qmult, Qinv, inject_Z. cbn.
  split; nia.
Qed.

Lemma true_div_complement (a b t : Z) :
  a + b = t -> t <> 0 -> (true_div a t + true_div b t == 1)%Q.
Proof.
  intros Hsum Ht. unfold true_div. rewrite !Qred_correct.
  assert (Hq : ~ (inject_Z t == 0)%Q).
  { unfold Qeq, inject_Z. cbn. lia. }
  rewrite <- Hsum in *. rewrite inject_Z_plus in *. field. exact Hq.
Qed.

Lemma true_div_scale (c a b : Z) :
  c <> 0 -> b <> 0 -> true_div (c * a) (c * b) = true_div a b.
Proof.
  intros Hc Hb. unfold true_div. apply Qred_complete.
  rewrite !inject_Z_mult. field. split.
  - unfold Qeq, inject_Z. cbn. lia.
  - unfold Qeq, inject_Z. cbn. lia.
Qed.

End RateFacts.

(** ** Keys shorter than the code *)

Lemma logical_state_valid (logical_state : str) :
  In logical_state [lit "0"; lit "1"] ->
  is_logical_state logical_state = true.
Proof. intros [<-|[<-|[]]]; reflexivity. Qed.

(** The three vote decoders return a rate for every counts mapping without
    a negative frequency, and the rate lies between 0 and 1. *)
Lemma vote_decoders_rate (code : BaseCode) (counts : dict str Z)
    (logical_state : str) :
  In code [RepetitionCode3; ShorCode9; RotatedSurfaceCodeD3] ->
  In logical_state [lit "0"; lit "1"] ->
  Forall (fun shots => 0 <= shots) (values counts) ->
  exists r,
    logical_error_rate_from_counts code counts logical_state = Ok r
    /\ (0 <= r <= 1)%Q.
Proof.
  intros Hcode Hstate Hshots.
  pose proof (logical_state_valid logical_state Hstate) as Hv.
  destruct Hcode as [<-|[<-|[<-|[]]]]; simpl;
    unfold repetition3.logical_error_rate_from_counts,
      shor9.logical_error_rate_from_counts,
      rotated_surface_d3.logical_error_rate_from_counts;
    rewrite Hv; cbn [negb];
    (destruct (sum (values counts) =? 0) eqn:E;
     [ exists 0%Q; split; [reflexivity|split; discriminate]
     | eexists; split; [reflexivity|];
       apply Z.eqb_neq in E;
       apply RateFacts.true_div_bounds; [|exact E];
       apply RateFacts.tally_bounds; exact Hshots ]).
Qed.

(** C1, as the code has it.  For an expected state "0" or "1": SteaneCode7
    fails with a ValueError as soon as some key of the counts has fewer than
    7 characters, and the error names the first such key in iteration
    order; RepetitionCode3, ShorCode9 and RotatedSurfaceCodeD3 check no key
    length and return a rate, between 0 and 1, for every counts mapping
    without a negative frequency, keys shorter than the code included. *)
Theorem short_keys_only_steane_raises (counts : dict str Z)
    (logical_state : str)
    (Hstate : In logical_state [lit "0"; lit "1"]) :
  (Exists (fun key => len key < Z.of_nat (n_physical SteaneCode7))
          (keys counts) ->
   exists before key shots after,
     items counts = before ++ (key, shots) :: after
     /\ Forall (fun k => Z.of_nat (n_physical SteaneCode7) <= len k)
               (keys before)
     /\ len key < Z.of_nat (n_physical SteaneCode7)
     /\ logical_error_rate_from_counts SteaneCode7 counts logical_state
        = Raise (steane7.too_short key))
  /\ (Forall (fun shots => 0 <= shots) (values counts) ->
      forall code,
        In code [RepetitionCode3; ShorCode9; RotatedSurfaceCodeD3] ->
        exists r,
          logical_error_rate_from_counts code counts logical_state = Ok r
          /\ (0 <= r <= 1)%Q).
Proof.
  pose proof (logical_state_valid logical_state Hstate) as Hv.
  split.
  - intros Hex.
    destruct (SteaneFacts.first_short_key (items counts) Hex)
      as (before & key & shots & after & E & Hpre & Hlen).
    exists before, key, shots, after.
    split; [exact E|]. split; [exact Hpre|]. split; [exact Hlen|].
    simpl. unfold steane7.logical_error_rate_from_counts.
    rewrite Hv, E. cbn [negb].
    rewrite (SteaneFacts.count_errors_first_short
               (int_of_str logical_state) before after key shots Hpre Hlen).
    reflexivity.
  - intros Hshots code Hcode.
    apply vote_decoders_rate; assumption.
Qed.

Lemma short_keys_only_steane_raises_witness :
  (exists before key shots after,
     items [(lit "0000000", 10); (lit "011", 5); (lit "01", 2)]
     = before ++ (key, shots) :: after
     /\ Forall (fun k => Z.of_nat (n_physical SteaneCode7) <= len k)
               (keys before)
     /\ len key < Z.of_nat (n_physical SteaneCode7)
     /\ logical_error_rate_from_counts SteaneCode7
          [(lit "0000000", 10); (lit "011", 5); (lit "01", 2)] "1"
        = Raise (steane7.too_short key))
  /\ (exists r,
        logical_error_rate_from_counts ShorCode9
          [(lit "0000000", 10); (lit "011", 5); (lit "01", 2)] "1"
        = Ok r
        /\ (0 <= r <= 1)%Q).
Proof.
  destruct (short_keys_only_steane_raises
              [(lit "0000000", 10); (lit "011", 5); (lit "01", 2)] "1"
              ltac:(right; left; reflexivity)) as [Hsteane Hvote].
  split.
  - apply Hsteane. right. left. vm_compute. reflexivity.
  - apply Hvote.
    + repeat constructor; discriminate.
    + right. left. reflexivity.
Defined.

(** C1 fails as stated: the three vote decoders accept a key shorter than
    their code's physical qubit count and return a rate. *)
Lemma short_key_accepted_by_vote_decoders :
  len (lit "00") < Z.of_nat (n_physical RepetitionCode3)
  /\ logical_error_rate_from_counts RepetitionCode3 [(lit "00", 1)] "0"
     = Ok 0%Q
  /\ len (lit "00") < Z.of_nat (n_physical ShorCode9)
  /\ logical_error_rate_from_counts ShorCode9 [(lit "00", 1)] "0" = Ok 0%Q
  /\ len (lit "00") < Z.of_nat (n_physical RotatedSurfaceCodeD3)
  /\ logical_error_rate_from_counts RotatedSurfaceCodeD3 [(lit "00", 1)] "0"
     = Ok 0%Q.
Proof. repeat split. Qed.

(** ** Zero total shots *)

(** C6, as the code has it.  For an expected state "0" or "1" and a counts
    mapping whose frequencies sum to 0 (the empty mapping included),
    RepetitionCode3, ShorCode9 and RotatedSurfaceCodeD3 return the rate 0;
    SteaneCode7 returns the rate 0 provided no key has fewer than 7
    characters. *)
Theorem zero_total_rate_is_zero (counts : dict str Z) (logical_state : str)
    (Hstate : In logical_state [lit "0"; lit "1"])
    (Hzero : sum (values counts) = 0) :
  logical_error_rate_from_counts RepetitionCode3 counts logical_state
  = Ok 0%Q
  /\ logical_error_rate_from_counts ShorCode9 counts logical_state = Ok 0%Q
  /\ logical_error_rate_from_counts RotatedSurfaceCodeD3 counts logical_state
     = Ok 0%Q
  /\ (Forall (fun key => Z.of_nat (n_physical SteaneCode7) <= len key)
             (keys counts) ->
      logical_error_rate_from_counts SteaneCode7 counts logical_state
      = Ok 0%Q).
Proof.
  pose proof (logical_state_valid logical_state Hstate) as Hv.
  split; [|split; [|split]].
  - simpl. unfold repetition3.logical_error_rate_from_counts.
    rewrite Hv, Hzero. reflexivity.
  - simpl. unfold shor9.logical_error_rate_from_counts.
    rewrite Hv, Hzero. reflexivity.
  - simpl. unfold rotated_surface_d3.logical_error_rate_from_counts.
    rewrite Hv, Hzero. reflexivity.
  - intros Hall.
    destruct (SteaneFacts.count_errors_total (int_of_str logical_state)
                (items counts) Hall 0) as [n Hn].
    simpl. unfold steane7.logical_error_rate_from_counts.
    rewrite Hv, Hn, Hzero. reflexivity.
Qed.

Lemma zero_total_rate_is_zero_witness :
  logical_error_rate_from_counts SteaneCode7
    [(lit "0000000", 0); (lit "1111111", 0)] "0" = Ok 0%Q.
Proof.
  apply (zero_total_rate_is_zero [(lit "0000000", 0); (lit "1111111", 0)] "0").
  - left. reflexivity.
  - reflexivity.
  - repeat constructor; vm_compute; discriminate.
Defined.

(** C6 fails as stated: SteaneCode7 raises on a zero-total mapping that
    holds a key shorter than 7 characters, since every key is decoded before
    the total is looked at. *)
Lemma steane_zero_total_short_key_raises :
  sum (values [(lit "0", 0)]) = 0
  /\ logical_error_rate_from_counts SteaneCode7 [(lit "0", 0)] "0"
     = Raise (ValueError
                "Expected at least 7 bits in measurement bitstring, got '0'.").
Proof. split; reflexivity. Qed.

(** ** The noise sweep *)

Module SweepFacts.
Import noise sweep.

Lemma str_eqb_eq (s t : str) : str_eqb s t = true <-> s = t.
Proof.
  unfold str_eqb. destruct (list_eq_dec ascii_dec s t); split;
    intros; try discriminate; try reflexivity; try assumption.
  contradiction.
Qed.

Lemma dict_mem_keys {V : Type} (k : str) (d : dict str V) :
  dict_mem str_eqb k d = true <-> In k (keys d).
Proof.
  unfold dict_mem, keys. rewrite existsb_exists, in_map_iff. split.
  - intros ([k' v] & Hin & E). apply str_eqb_eq in E. simpl in E. subst k'.
    exists (k, v). split; [reflexivity|exact Hin].
  - intros ([k' v] & E & Hin). simpl in E. subst k'.
    exists (k, v). split; [exact Hin|]. apply str_eqb_eq. reflexivity.
Qed.

Lemma builders_check_strength :
  Forall checks_strength
    [bit_flip_noise_model; phase_flip_noise_model;
     depolarizing_noise_model; amplitude_damping_noise_model].
Proof.
  repeat (apply Forall_cons; [|try apply Forall_nil]); intros p;
    unfold bit_flip_noise_model, phase_flip_noise_model,
      depolarizing_noise_model, amplitude_damping_noise_model;
    split; intros ->; cbn [negb]; eexists; reflexivity.
Qed.

Lemma lookup_known (noise_type : str) :
  In noise_type (keys _NOISE_BUILDERS) ->
  exists noise_builder,
    lookup_builder noise_type = Ok noise_builder
    /\ checks_strength noise_builder.
Proof.
  pose proof builders_check_strength as Hb.
  inversion Hb as [|? ? Hbf Hb1]; subst.
  inversion Hb1 as [|? ? Hpf Hb2]; subst.
  inversion Hb2 as [|? ? Hdp Hb3]; subst.
  inversion Hb3 as [|? ? Had _]; subst.
  intros [<-|[<-|[<-|[]]]]; eexists; (split; [reflexivity|assumption]).
Qed.

Section WithSimulator.
Variable rng : Type.
Variable backend :
  QuantumCircuit -> NoiseModel -> Z -> rng -> dict str Z * rng.

(** An unknown category is refused before anything is done. *)
Lemma grid_unknown (code : BaseCode) (ps : list Q) (noise_type : str)
    (logical_state : str) (shots : Z) (w : world rng) :
  ~ In noise_type (keys _NOISE_BUILDERS) ->
  run_code_on_noise_grid backend code ps noise_type logical_state shots w
  = (w, Raise (unknown_noise_type noise_type)).
Proof.
  intros Hn. unfold run_code_on_noise_grid.
  destruct (dict_mem str_eqb noise_type _NOISE_BUILDERS) eqn:E.
  - apply dict_mem_keys in E. contradiction.
  - reflexivity.
Qed.

Lemma grid_known (code : BaseCode) (ps : list Q) (noise_type : str)
    (logical_state : str) (shots : Z) (w : world rng)
    (noise_builder : Q -> result NoiseModel) :
  In noise_type (keys _NOISE_BUILDERS) ->
  lookup_builder noise_type = Ok noise_builder ->
  run_code_on_noise_grid backend code ps noise_type logical_state shots w
  = grid_loop backend code noise_builder noise_type logical_state shots
              ps [] w.
Proof.
  intros Hn Hl. unfold run_code_on_noise_grid.
  apply dict_mem_keys in Hn. rewrite Hn. cbn [negb].
  unfold iobind, lift. rewrite Hl. reflexivity.
Qed.

Variable code : BaseCode.
Variable noise_builder : Q -> result NoiseModel.
Variables noise_type logical_state : str.
Variable shots : Z.

Local Abbreviation loop :=
  (grid_loop backend code noise_builder noise_type logical_state shots).

(** A strength the builder refuses ends the sweep where it stands. *)
Lemma grid_loop_refused (p : Q) (rest : list Q) (results : dict Q Q)
    (w : world rng) (e : exn) :
  noise_builder p = Raise e ->
  loop (p :: rest) results w = (w, Raise e).
Proof.
  intros Hp. cbn [grid_loop]. unfold iobind, lift.
  rewrite Hp. reflexivity.
Qed.

(** So does a logical state the code refuses. *)
Lemma grid_loop_no_circuit (p : Q) (rest : list Q) (results : dict Q Q)
    (w : world rng) (m : NoiseModel) (e : exn) :
  noise_builder p = Ok m ->
  build_circuit code logical_state = Raise e ->
  loop (p :: rest) results w = (w, Raise e).
Proof.
  intros Hp Hc. cbn [grid_loop]. unfold iobind, lift.
  rewrite Hp, Hc. reflexivity.
Qed.

(** The loop over a list in two parts. *)
Lemma grid_loop_app (pre post : list Q) :
  forall (results : dict Q Q) (w : world rng),
    loop (pre ++ post) results w
    = match loop pre results w with
      | (w', Ok results') => loop post results' w'
      | (w', Raise e) => (w', Raise e)
      end.
Proof.
  induction pre as [|p pre IH]; intros results w; [reflexivity|].
  cbn [app grid_loop]. unfold iobind, lift, simulate, print.
  destruct (noise_builder p) as [m|e]; [|reflexivity].
  destruct (build_circuit code logical_state) as [circuit|e];
    [|reflexivity].
  destruct (backend circuit m shots (seed w)) as [counts seed'].
  destruct (logical_error_rate_from_counts code counts logical_state)
    as [r|e]; [|reflexivity].
  apply IH.
Qed.

Lemma keys_dict_set (results : dict Q Q) (p r : Q) :
  keys (dict_set Qeq_bool results p r) = remember_key (keys results) p.
Proof.
  unfold remember_key, keys.
  induction results as [|[k v] rest IH]; cbn [dict_set map existsb fst].
  - reflexivity.
  - destruct (Qeq_bool k p); cbn [orb map fst]; [reflexivity|].
    rewrite IH. destruct (existsb _ _); reflexivity.
Qed.

Lemma simulated_length (circuit : QuantumCircuit)
    (models : list NoiseModel) :
  forall s : rng,
    List.length (fst (simulated backend circuit shots models s))
    = List.length models.
Proof.
  induction models as [|m models IH]; intros s;
    cbn [simulated fst List.length]; [reflexivity|].
  rewrite IH. reflexivity.
Qed.

Lemma runs_after_points (circuit : QuantumCircuit) (t : list event)
    (s : rng) (points : list (Q * NoiseModel * Q)) :
  simulator_runs
    (mkWorld (t ++ flat_map (point_events circuit shots (name code)
                                          noise_type) points) s)
  = (List.length (filter is_run t) + List.length points)%nat.
Proof.
  unfold simulator_runs. cbn [trace]. rewrite filter_app, length_app.
  f_equal. induction points as [|[[p m] r] points IH]; [reflexivity|].
  cbn [flat_map point_events app filter is_run List.length].
  rewrite IH. reflexivity.
Qed.

Lemma runs_after_point (w : world rng) (e1 e2 : event) :
  is_run e1 = true -> is_run e2 = false ->
  forall s : rng,
    simulator_runs (mkWorld ((trace w ++ [e1]) ++ [e2]) s)
    = S (simulator_runs w).
Proof.
  intros H1 H2 s. unfold simulator_runs. cbn [trace].
  rewrite !filter_app, !length_app. cbn [filter].
  rewrite H1, H2. cbn [List.length]. lia.
Qed.

(** A sweep that returns has completed every point: it could build the
    noise model of every strength, the code could build its circuit once
    there was a strength, and the decoder returned a rate on the counts of
    every run. *)
Lemma grid_loop_returned (ps : list Q) :
  forall (results : dict Q Q) (w w' : world rng) (results' : dict Q Q),
    loop ps results w = (w', Ok results') ->
    exists models rates,
      Forall2 (fun p m => noise_builder p = Ok m) ps models
      /\ List.length rates = List.length ps
      /\ results' = fold_left record_rate (combine ps rates) results
      /\ simulator_runs w' = (simulator_runs w + List.length ps)%nat
      /\ forall circuit,
           build_circuit code logical_state = Ok circuit ->
           Forall2 (fun counts r =>
                      logical_error_rate_from_counts code counts
                        logical_state = Ok r)
                   (fst (simulated backend circuit shots models (seed w)))
                   rates
           /\ w' = mkWorld
                     (trace w
                        ++ flat_map (point_events circuit shots (name code)
                                                  noise_type)
                                    (combine (combine ps models) rates))
                     (snd (simulated backend circuit shots models
                                     (seed w))).
Proof.
  induction ps as [|p ps IH]; intros results w w' results'.
  - cbn [grid_loop]. unfold ret. intros Hrun. injection Hrun as <- <-.
    exists [], []. split; [constructor|]. split; [reflexivity|].
    split; [reflexivity|]. split; [cbn [List.length]; lia|].
    intros circuit _. split; [constructor|].
    cbn [combine flat_map simulated snd]. rewrite app_nil_r.
    destruct w. reflexivity.
  - cbn [grid_loop]. unfold iobind, lift, simulate, print.
    destruct (noise_builder p) as [m|e] eqn:Em;
      [|intros Hrun; discriminate Hrun].
    destruct (build_circuit code logical_state) as [c|e] eqn:Ec;
      [|intros Hrun; discriminate Hrun].
    destruct (backend c m shots (seed w)) as [counts seed'] eqn:Eb.
    destruct (logical_error_rate_from_counts code counts logical_state)
      as [r|e] eqn:Er; [|intros Hrun; discriminate Hrun].
    cbn [trace seed]. intros Hrun.
    destruct (IH _ _ _ _ Hrun)
      as (models & rates & Hms & Hlen & Hres & Hruns & Hpoints).
    exists (m :: models), (r :: rates).
    split; [constructor; assumption|].
    split; [cbn [List.length]; rewrite Hlen; reflexivity|].
    split; [exact Hres|].
    split.
    { rewrite Hruns, runs_after_point by reflexivity.
      cbn [List.length]. lia. }
    intros circuit Hc. injection Hc as <-.
    destruct (Hpoints c eq_refl) as [Hrs Hw].
    cbn [trace seed] in Hrs, Hw.
    cbn [simulated]. rewrite Eb. cbn [fst snd].
    split; [constructor; assumption|].
    rewrite Hw. cbn [combine flat_map point_events app].
    rewrite <- !app_assoc. reflexivity.
Qed.

(** The sweep over strengths that are all in range: every point runs the
    simulator on the model of its strength, from the state the run before
    left, decodes the counts of that run, records the rate and prints
    it. *)
Lemma grid_loop_runs (circuit : QuantumCircuit) (ps : list Q) :
  (forall p, in_unit_interval p = true ->
             exists m, noise_builder p = Ok m) ->
  build_circuit code logical_state = Ok circuit ->
  decodes_runs backend code logical_state shots circuit ->
  Forall (fun p => in_unit_interval p = true) ps ->
  forall (results : dict Q Q) (w : world rng),
  exists models rates,
    Forall2 (fun p m => noise_builder p = Ok m) ps models
    /\ Forall2 (fun counts r =>
                  logical_error_rate_from_counts code counts logical_state
                  = Ok r)
               (fst (simulated backend circuit shots models (seed w)))
               rates
    /\ loop ps results w
       = (mkWorld
            (trace w
               ++ flat_map (point_events circuit shots (name code)
                                         noise_type)
                           (combine (combine ps models) rates))
            (snd (simulated backend circuit shots models (seed w))),
          Ok (fold_left record_rate (combine ps rates) results)).
Proof.
  intros Hb Hc Hd Hps. induction Hps as [|p ps Hp _ IH];
    intros results w.
  - exists [], []. split; [constructor|]. split; [constructor|].
    cbn [grid_loop combine flat_map fold_left simulated snd].
    rewrite app_nil_r. destruct w. reflexivity.
  - destruct (Hb p Hp) as [m Hm].
    destruct (Hd m (seed w)) as [r Hr].
    cbn [grid_loop]. unfold iobind, lift, simulate, print.
    rewrite Hm, Hc.
    destruct (backend circuit m shots (seed w)) as [counts seed'] eqn:Eb.
    cbn [fst] in Hr. rewrite Hr. cbn [trace seed].
    destruct (IH (dict_set Qeq_bool results p r)
                 (mkWorld ((trace w ++ [SimulatorRun circuit m shots])
                             ++ [Print (name code) noise_type p r]) seed'))
      as (models & rates & Hms & Hrs & Hrun).
    cbn [trace seed] in Hrs, Hrun.
    exists (m :: models), (r :: rates).
    split; [constructor; assumption|].
    cbn [simulated]. rewrite Eb. cbn [fst snd].
    split; [constructor; assumption|].
    rewrite Hrun.
    cbn [combine flat_map point_events fold_left record_rate fst snd app].
    rewrite <- !app_assoc. reflexivity.
Qed.

Lemma rates_length (circuit : QuantumCircuit) (ps : list Q)
    (models : list NoiseModel) (rates : list Q) (s : rng) :
  Forall2 (fun p m => noise_builder p = Ok m) ps models ->
  Forall2 (fun counts r =>
             logical_error_rate_from_counts code counts logical_state
             = Ok r)
          (fst (simulated backend circuit shots models s)) rates ->
  List.length models = List.length ps
  /\ List.length rates = List.length ps.
Proof.
  intros Hms Hrs. apply Forall2_length in Hms, Hrs.
  rewrite simulated_length in Hrs. lia.
Qed.

End WithSimulator.

Lemma lookup_range_error (noise_type : str) :
  In noise_type (keys _NOISE_BUILDERS) ->
  exists noise_builder,
    lookup_builder noise_type = Ok noise_builder
    /\ (forall p, in_unit_interval p = true ->
                  exists m, noise_builder p = Ok m)
    /\ (forall p, in_unit_interval p = false ->
                  noise_builder p = Raise (range_error noise_type)).
Proof.
  intros [<-|[<-|[<-|[]]]].
  - exists bit_flip_noise_model. split; [reflexivity|].
    unfold bit_flip_noise_model.
    split; intros p ->; cbn [negb]; [eexists|]; reflexivity.
  - exists depolarizing_noise_model. split; [reflexivity|].
    unfold depolarizing_noise_model.
    split; intros p ->; cbn [negb]; [eexists|]; reflexivity.
  - exists amplitude_damping_noise_model. split; [reflexivity|].
    unfold amplitude_damping_noise_model.
    split; intros p ->; cbn [negb]; [eexists|]; reflexivity.
Qed.

Lemma keys_record_rate (points : list (Q * Q)) :
  forall results : dict Q Q,
    keys (fold_left record_rate points results)
    = fold_left remember_key (map fst points) (keys results).
Proof.
  induction points as [|[p r] points IH]; intros results;
    cbn [fold_left map fst]; [reflexivity|].
  rewrite IH. unfold record_rate. cbn [fst snd].
  rewrite keys_dict_set. reflexivity.
Qed.

Lemma strengths_of_combine (ps rates : list Q) :
  List.length rates = List.length ps -> map fst (combine ps rates) = ps.
Proof.
  revert rates. induction ps as [|p ps IH]; intros [|r rates] Hlen;
    try discriminate Hlen; [reflexivity|].
  cbn [combine map fst]. rewrite IH; [reflexivity|].
  cbn [List.length] in Hlen. lia.
Qed.

Lemma keys_record_rates (ps rates : list Q) :
  List.length rates = List.length ps ->
  keys (record_rates ps rates) = first_occurrences ps.
Proof.
  intros Hlen. unfold record_rates, first_occurrences.
  rewrite keys_record_rate, (strengths_of_combine ps rates Hlen).
  reflexivity.
Qed.

Lemma record_new (results : dict Q Q) (p r : Q) :
  Forall (fun k => ~ (k == p)%Q) (keys results) ->
  dict_set Qeq_bool results p r = results ++ [(p, r)].
Proof.
  unfold keys. induction results as [|[k v] rest IH]; intros Hnew;
    cbn [dict_set app]; [reflexivity|].
  cbn [map fst] in Hnew. inversion Hnew as [|? ? Hk Hrest]; subst.
  destruct (Qeq_bool k p) eqn:E.
  - apply Qeq_bool_iff in E. contradiction.
  - rewrite (IH Hrest). reflexivity.
Qed.

Lemma record_all_new (ps : list Q) :
  forall (rates : list Q) (results : dict Q Q),
    pairwise_distinct ps ->
    Forall (fun k => Forall (fun p => ~ (k == p)%Q) ps) (keys results) ->
    fold_left record_rate (combine ps rates) results
    = results ++ combine ps rates.
Proof.
  induction ps as [|p ps IH]; intros rates results Hd Hs.
  - cbn [combine fold_left]. rewrite app_nil_r. reflexivity.
  - destruct rates as [|r rates].
    + cbn [combine fold_left]. rewrite app_nil_r. reflexivity.
    + cbn [combine fold_left]. destruct Hd as [Hp Hd].
      unfold record_rate at 2. cbn [fst snd].
      rewrite record_new.
      * rewrite IH; [rewrite <- app_assoc; reflexivity|exact Hd|].
        unfold keys. rewrite map_app. cbn [map fst].
        apply Forall_app. split.
        -- eapply Forall_impl; [|exact Hs]. cbn beta.
           intros k Hk. inversion Hk; assumption.
        -- constructor; [exact Hp|constructor].
      * eapply Forall_impl; [|exact Hs]. cbn beta.
        intros k Hk. inversion Hk; assumption.
Qed.

Lemma record_rates_distinct (ps rates : list Q) :
  pairwise_distinct ps -> record_rates ps rates = combine ps rates.
Proof.
  intros Hd. unfold record_rates.
  rewrite (record_all_new ps rates [] Hd); [reflexivity|constructor].
Qed.

(** Looking a strength up gives the rate recorded last for it. *)
Lemma get_set_same (results : dict Q Q) (p r : Q) :
  dict_get Qeq_bool p (dict_set Qeq_bool results p r) = Some r.
Proof.
  induction results as [|[k v] rest IH]; cbn [dict_set dict_get].
  - rewrite (proj2 (Qeq_bool_iff p p)) by reflexivity. reflexivity.
  - destruct (Qeq_bool k p) eqn:E; cbn [dict_get]; rewrite E;
      [reflexivity|exact IH].
Qed.

Lemma get_set_other (results : dict Q Q) (p q v : Q) :
  ~ (q == p)%Q ->
  dict_get Qeq_bool p (dict_set Qeq_bool results q v)
  = dict_get Qeq_bool p results.
Proof.
  intros Hn. induction results as [|[k v0] rest IH];
    cbn [dict_set dict_get].
  - destruct (Qeq_bool q p) eqn:E; [|reflexivity].
    apply Qeq_bool_iff in E. contradiction.
  - destruct (Qeq_bool k q) eqn:Eq; cbn [dict_get].
    + destruct (Qeq_bool k p) eqn:Ep; [|reflexivity].
      exfalso. apply Hn. apply Qeq_bool_iff in Eq, Ep.
      rewrite <- Eq. exact Ep.
    + destruct (Qeq_bool k p); [reflexivity|exact IH].
Qed.

Lemma get_record_others (p : Q) (points : list (Q * Q)) :
  Forall (fun point => ~ (fst point == p)%Q) points ->
  forall results : dict Q Q,
    dict_get Qeq_bool p (fold_left record_rate points results)
    = dict_get Qeq_bool p results.
Proof.
  induction 1 as [|[q v] points Hq _ IH]; intros results;
    cbn [fold_left]; [reflexivity|].
  rewrite IH. unfold record_rate. cbn [fst snd] in *.
  apply get_set_other. exact Hq.
Qed.

Lemma combine_app_same (pre post rs_pre rs_post : list Q) :
  List.length rs_pre = List.length pre ->
  combine (pre ++ post) (rs_pre ++ rs_post)
  = combine pre rs_pre ++ combine post rs_post.
Proof.
  revert rs_pre. induction pre as [|p pre IH]; intros [|r rs_pre] Hlen;
    try discriminate Hlen; [reflexivity|].
  cbn [app combine]. rewrite IH; [reflexivity|].
  cbn [List.length] in Hlen. lia.
Qed.

Lemma get_last_rate (pre post rs_pre rs_post : list Q) (p r : Q)
    (results : dict Q Q) :
  List.length rs_pre = List.length pre ->
  Forall (fun q => ~ (q == p)%Q) post ->
  dict_get Qeq_bool p
    (fold_left record_rate
       (combine (pre ++ p :: post) (rs_pre ++ r :: rs_post)) results)
  = Some r.
Proof.
  intros Hlen Hpost.
  rewrite (combine_app_same pre (p :: post) rs_pre (r :: rs_post) Hlen).
  cbn [combine]. rewrite fold_left_app. cbn [fold_left].
  rewrite get_record_others.
  - unfold record_rate at 1. cbn [fst snd]. apply get_set_same.
  - apply Forall_forall. intros [q v] Hin. cbn [fst].
    apply in_combine_l in Hin.
    rewrite Forall_forall in Hpost. apply Hpost. exact Hin.
Qed.

Lemma remember_new (seen : list Q) (p : Q) :
  Forall (fun k => ~ (k == p)%Q) seen -> remember_key seen p = seen ++ [p].
Proof.
  intros Hnew. unfold remember_key.
  replace (existsb (fun k => Qeq_bool k p) seen) with false; [reflexivity|].
  symmetry. induction Hnew as [|k seen Hk _ IH]; cbn [existsb].
  - reflexivity.
  - rewrite IH. destruct (Qeq_bool k p) eqn:E; [|reflexivity].
    apply Qeq_bool_iff in E. contradiction.
Qed.

Lemma remember_all_new (ps seen : list Q) :
  pairwise_distinct ps ->
  Forall (fun k => Forall (fun p => ~ (k == p)%Q) ps) seen ->
  fold_left remember_key ps seen = seen ++ ps.
Proof.
  revert seen. induction ps as [|p rest IH]; intros seen Hd Hs.
  - cbn [fold_left]. rewrite app_nil_r. reflexivity.
  - cbn [fold_left]. destruct Hd as [Hp Hd].
    rewrite remember_new.
    + rewrite IH; [rewrite <- app_assoc; reflexivity|exact Hd|].
      apply Forall_app. split.
      * eapply Forall_impl; [|exact Hs]. cbn beta.
        intros k Hk. inversion Hk; assumption.
      * constructor; [exact Hp|constructor].
    + eapply Forall_impl; [|exact Hs]. cbn beta.
      intros k Hk. inversion Hk; assumption.
Qed.

Lemma first_occurrences_distinct (ps : list Q) :
  pairwise_distinct ps -> first_occurrences ps = ps.
Proof.
  intros Hd. unfold first_occurrences.
  rewrite (remember_all_new ps [] Hd); [reflexivity|constructor].
Qed.

(** Every code of the repository refuses a logical state other than "0"
    and "1" when it builds its circuit. *)
Lemma build_circuit_refuses (code : BaseCode) (logical_state : str) :
  In code all_codes ->
  ~ In logical_state [lit "0"; lit "1"] ->
  build_circuit code logical_state = Raise unsupported_state.
Proof.
  intros Hcode Hstate.
  assert (E0 : str_eqb logical_state "0" = false).
  { destruct (str_eqb logical_state "0") eqn:E; [|reflexivity].
    apply str_eqb_eq in E. exfalso. apply Hstate. left. symmetry. exact E. }
  assert (E1 : str_eqb logical_state "1" = false).
  { destruct (str_eqb logical_state "1") eqn:E; [|reflexivity].
    apply str_eqb_eq in E. exfalso. apply Hstate. right. left.
    symmetry. exact E. }
  destruct Hcode as [<-|[<-|[<-|[<-|[]]]]].
  - change (build_circuit RepetitionCode3)
      with repetition3.build_circuit.
    unfold repetition3.build_circuit. rewrite E0, E1. reflexivity.
  - change (build_circuit ShorCode9) with shor9.build_circuit.
    unfold shor9.build_circuit. rewrite E0, E1. reflexivity.
  - change (build_circuit RotatedSurfaceCodeD3)
      with rotated_surface_d3.build_circuit.
    unfold rotated_surface_d3.build_circuit, is_logical_state.
    rewrite E0, E1. reflexivity.
  - change (build_circuit SteaneCode7) with steane7.build_circuit.
    unfold steane7.build_circuit, is_logical_state.
    rewrite E0, E1. reflexivity.
Qed.

End SweepFacts.

(** C7, on the code.  The table of builders of the sweep holds three
    categories, bit_flip, depolarizing and amplitude_damping: phase_flip,
    which the noise package defines and exports, is refused as unknown
    before anything is done, like any other category outside the table. *)
Theorem grid_rejects_phase_flip :
  keys sweep._NOISE_BUILDERS
  = [lit "bit_flip"; lit "depolarizing"; lit "amplitude_damping"]
  /\ In "phase_flip_noise_model" noise.__all__
  /\ (forall (rng : Type) backend (code : BaseCode) (ps : list Q)
             (logical_state : str) (shots : Z) (w : sweep.world rng),
         sweep.run_code_on_noise_grid backend code ps "phase_flip"
                                      logical_state shots w
         = (w, Raise (ValueError "Unknown noise_type 'phase_flip'.")))
  /\ (forall (rng : Type) backend (code : BaseCode) (ps : list Q)
             (noise_type logical_state : str) (shots : Z)
             (w : sweep.world rng),
         ~ In noise_type (keys sweep._NOISE_BUILDERS) ->
         sweep.run_code_on_noise_grid backend code ps noise_type
                                      logical_state shots w
         = (w, Raise (sweep.unknown_noise_type noise_type))).
Proof.
  split; [reflexivity|]. split; [right; left; reflexivity|].
  split; [reflexivity|].
  intros. apply SweepFacts.grid_unknown. assumption.
Qed.

(** C8 fails as stated: with the strengths [0.1, 2.0] the simulator has run
    once, for 0.1, when the builder refuses 2.0. *)
Lemma grid_runs_simulator_before_range_error :
  let out := sweep.run_code_on_noise_grid sweep.ideal_backend RepetitionCode3
               [1 # 10; 2 # 1]%Q "bit_flip" "0" 4096 sweep.start in
  snd out = Raise (ValueError "Probability p must be between 0 and 1.")
  /\ sweep.simulator_runs (fst out) = 1%nat.
Proof. split; reflexivity. Qed.

(** C8, as the code has it.  An unknown category is refused before anything
    is done.  Behind a known category the loop validates each strength when
    it reaches it, with the category's builder, and only then has the code
    build its circuit.  So with a logical state other than "0" and "1" the
    call ends at the first strength, before any simulator run: with the
    unsupported-state error of [build_circuit] when that strength is in
    [0, 1], with the builder's range error when it is not.  And for a code
    that builds its circuit and whose decoder returns a rate on the counts
    the simulator gives for it, a strength out of range behind strengths in
    range is refused with the builder's range error after exactly one
    simulator run for each strength in front of it: after none only if it
    comes first. *)
Theorem grid_validation_order (rng : Type)
    (backend : QuantumCircuit -> noise.NoiseModel -> Z -> rng
               -> dict str Z * rng)
    (code : BaseCode) (ps : list Q) (noise_type logical_state : str)
    (shots : Z) (w : sweep.world rng) :
  let out := sweep.run_code_on_noise_grid backend code ps noise_type
                                          logical_state shots w in
  (~ In noise_type (keys sweep._NOISE_BUILDERS) ->
   out = (w, Raise (sweep.unknown_noise_type noise_type)))
  /\ (In noise_type (keys sweep._NOISE_BUILDERS) ->
      In code all_codes ->
      ~ In logical_state [lit "0"; lit "1"] ->
      forall p rest,
        ps = p :: rest ->
        (noise.in_unit_interval p = true ->
         out = (w, Raise (ValueError
                            "Only logical states '0' and '1' are supported.")))
        /\ (noise.in_unit_interval p = false ->
            out = (w, Raise (range_error noise_type))))
  /\ (In noise_type (keys sweep._NOISE_BUILDERS) ->
      forall circuit pre p post,
        build_circuit code logical_state = Ok circuit ->
        decodes_runs backend code logical_state shots circuit ->
        ps = pre ++ p :: post ->
        Forall (fun q => noise.in_unit_interval q = true) pre ->
        noise.in_unit_interval p = false ->
        exists w',
          out = (w', Raise (range_error noise_type))
          /\ sweep.simulator_runs w'
             = (sweep.simulator_runs w + List.length pre)%nat).
Proof.
  cbv zeta. split; [|split].
  - apply SweepFacts.grid_unknown.
  - intros Hn Hcode Hstate p rest ->.
    destruct (SweepFacts.lookup_range_error noise_type Hn)
      as (nb & Hl & Hin & Hout).
    rewrite (SweepFacts.grid_known rng backend code (p :: rest) noise_type
               logical_state shots w nb Hn Hl).
    split; intros Hp.
    + destruct (Hin p Hp) as [m Hm].
      apply (SweepFacts.grid_loop_no_circuit rng backend code nb noise_type
               logical_state shots p rest [] w m _ Hm).
      apply SweepFacts.build_circuit_refuses; assumption.
    + apply SweepFacts.grid_loop_refused. apply Hout. exact Hp.
  - intros Hn circuit pre p post Hc Hd -> Hpre Hp.
    destruct (SweepFacts.lookup_range_error noise_type Hn)
      as (nb & Hl & Hin & Hout).
    rewrite (SweepFacts.grid_known rng backend code (pre ++ p :: post)
               noise_type logical_state shots w nb Hn Hl).
    rewrite SweepFacts.grid_loop_app.
    destruct (SweepFacts.grid_loop_runs rng backend code nb noise_type
                logical_state shots circuit pre Hin Hc Hd Hpre [] w)
      as (models & rates & Hms & Hrs & Hrun).
    rewrite Hrun.
    rewrite (SweepFacts.grid_loop_refused rng backend code nb noise_type
               logical_state shots p post _ _ _ (Hout p Hp)).
    eexists. split; [reflexivity|].
    rewrite SweepFacts.runs_after_points.
    destruct (SweepFacts.rates_length rng backend code nb logical_state
                shots circuit pre models rates (sweep.seed w) Hms Hrs)
      as [Hlm Hlr].
    rewrite !length_combine. unfold sweep.simulator_runs. lia.
Qed.

Lemma grid_validation_order_witness :
  exists w',
    sweep.run_code_on_noise_grid sweep.ideal_backend SteaneCode7
      [1 # 4; 1 # 2; 3 # 2; 1 # 10]%Q "amplitude_damping" "1" 1024
      sweep.start
    = (w', Raise (ValueError
                    "Damping parameter gamma must be between 0 and 1."))
    /\ sweep.simulator_runs w' = 2%nat.
Proof.
  refine (proj2 (proj2 (grid_validation_order unit sweep.ideal_backend
                          SteaneCode7 [1 # 4; 1 # 2; 3 # 2; 1 # 10]%Q
                          "amplitude_damping" "1" 1024 sweep.start))
            _ _ [1 # 4; 1 # 2]%Q (3 # 2)%Q [1 # 10]%Q _ _ _ _ _).
  - right. right. left. reflexivity.
  - reflexivity.
  - intros noise_model s. eexists. vm_compute. reflexivity.
  - reflexivity.
  - repeat constructor.
  - reflexivity.
Defined.

(** C9 fails as stated: a strength requested twice gets one entry, at the
    place of its first occurrence. *)
Lemma grid_repeated_strength_one_entry :
  snd (sweep.run_code_on_noise_grid sweep.ideal_backend RepetitionCode3
         [1 # 2; 1 # 10; 1 # 2]%Q "bit_flip" "0" 4096 sweep.start)
  = Ok [((1 # 2)%Q, 0%Q); ((1 # 10)%Q, 0%Q)].
Proof. reflexivity. Qed.

(** C9, as the code has it.  Whenever the sweep returns a mapping, it has
    run the simulator once per requested strength, and the mapping is what
    the assignments results[p] = rate leave, made in the order of the list:
    the rate of a strength is the one the code's decoder returned on the
    counts of that strength's run, the run being made on the code's circuit
    with the noise model the category's builder returned for the strength,
    from the state in which the run before left the simulator.  So the keys
    of the mapping, in iteration order, are the distinct requested
    strengths in order of first occurrence, and looking a strength up
    gives the rate of the last run made for it.  When the requested
    strengths are pairwise distinct, the mapping is the list of the pairs
    (strength, rate of that strength), one per requested strength, in the
    order of the input list.  The sweep does return a mapping for a known category,
    strengths that are all in [0, 1] and a code that builds its circuit and
    whose decoder returns a rate on the counts the simulator gives for
    it. *)
Theorem grid_result_keys (rng : Type)
    (backend : QuantumCircuit -> noise.NoiseModel -> Z -> rng
               -> dict str Z * rng)
    (code : BaseCode) (ps : list Q) (noise_type logical_state : str)
    (shots : Z) (w : sweep.world rng) :
  let out := sweep.run_code_on_noise_grid backend code ps noise_type
                                          logical_state shots w in
  (forall w' results,
     out = (w', Ok results) ->
     exists noise_builder models rates,
       sweep.lookup_builder noise_type = Ok noise_builder
       /\ Forall2 (fun p m => noise_builder p = Ok m) ps models
       /\ List.length rates = List.length ps
       /\ (forall circuit,
              build_circuit code logical_state = Ok circuit ->
              Forall2 (fun counts r =>
                         logical_error_rate_from_counts code counts
                           logical_state = Ok r)
                      (fst (simulated backend circuit shots models
                                      (sweep.seed w)))
                      rates)
       /\ results = record_rates ps rates
       /\ sweep.simulator_runs w'
          = (sweep.simulator_runs w + List.length ps)%nat
       /\ keys results = first_occurrences ps
       /\ (forall pre p post rates_pre r rates_post,
              ps = pre ++ p :: post ->
              rates = rates_pre ++ r :: rates_post ->
              List.length rates_pre = List.length pre ->
              Forall (fun q => ~ (q == p)%Q) post ->
              dict_get Qeq_bool p results = Some r)
       /\ (pairwise_distinct ps ->
           results = combine ps rates
           /\ keys results = ps
           /\ List.length results = List.length ps))
  /\ (In noise_type (keys sweep._NOISE_BUILDERS) ->
      Forall (fun p => noise.in_unit_interval p = true) ps ->
      forall circuit,
        build_circuit code logical_state = Ok circuit ->
        decodes_runs backend code logical_state shots circuit ->
        exists w' results, out = (w', Ok results)).
Proof.
  cbv zeta. split.
  - intros w' results Hout.
    assert (Hnoise : In noise_type (keys sweep._NOISE_BUILDERS)).
    { apply SweepFacts.dict_mem_keys.
      destruct (dict_mem str_eqb noise_type sweep._NOISE_BUILDERS) eqn:E;
        [reflexivity|].
      unfold sweep.run_code_on_noise_grid in Hout. rewrite E in Hout.
      discriminate Hout. }
    destruct (SweepFacts.lookup_range_error noise_type Hnoise)
      as (nb & Hl & _).
    rewrite (SweepFacts.grid_known rng backend code ps noise_type
               logical_state shots w nb Hnoise Hl) in Hout.
    destruct (SweepFacts.grid_loop_returned rng backend code nb noise_type
                logical_state shots ps [] w w' results Hout)
      as (models & rates & Hms & Hlen & Hres & Hruns & Hpoints).
    fold (record_rates ps rates) in Hres.
    pose proof (SweepFacts.keys_record_rates ps rates Hlen) as Hkeys.
    exists nb, models, rates.
    split; [exact Hl|]. split; [exact Hms|]. split; [exact Hlen|].
    split; [intros circuit Hc; apply (Hpoints circuit Hc)|].
    split; [exact Hres|]. split; [exact Hruns|].
    rewrite Hres. split; [exact Hkeys|].
    split.
    { intros pre p post rates_pre r rates_post -> -> Hpre Hpost.
      apply SweepFacts.get_last_rate; assumption. }
    intros Hd.
    assert (E : keys (record_rates ps rates) = ps).
    { rewrite Hkeys. apply SweepFacts.first_occurrences_distinct.
      exact Hd. }
    split; [apply SweepFacts.record_rates_distinct; exact Hd|].
    split; [exact E|].
    rewrite <- E at 2. unfold keys. rewrite length_map. reflexivity.
  - intros Hnoise Hps circuit Hbuild Hdec.
    destruct (SweepFacts.lookup_range_error noise_type Hnoise)
      as (nb & Hl & Hin & _).
    rewrite (SweepFacts.grid_known rng backend code ps noise_type
               logical_state shots w nb Hnoise Hl).
    destruct (SweepFacts.grid_loop_runs rng backend code nb noise_type
                logical_state shots circuit ps Hin Hbuild Hdec Hps [] w)
      as (models & rates & _ & _ & Hrun).
    do 2 eexists. exact Hrun.
Qed.

Lemma grid_result_keys_witness :
  exists w' rates,
    sweep.run_code_on_noise_grid sweep.ideal_backend SteaneCode7
      [1 # 100; 1 # 20; 1 # 1000]%Q "bit_flip" "0" 4096 sweep.start
    = (w', Ok (combine [1 # 100; 1 # 20; 1 # 1000]%Q rates))
    /\ List.length rates = 3%nat
    /\ sweep.simulator_runs w' = 3%nat.
Proof.
  destruct (grid_result_keys unit sweep.ideal_backend SteaneCode7
              [1 # 100; 1 # 20; 1 # 1000]%Q "bit_flip" "0" 4096
              sweep.start) as [Hreturned Hreturns].
  destruct (Hreturns
              ltac:(left; reflexivity)
              ltac:(repeat constructor)
              (match build_circuit SteaneCode7 "0" with
               | Ok circuit => circuit
               | Raise _ => mkCircuit 0 0 []
               end)
              ltac:(reflexivity)
              ltac:(intros noise_model s; eexists; vm_compute; reflexivity))
    as (w' & results & Hout).
  destruct (Hreturned w' results Hout)
    as (nb & models & rates & _ & _ & Hlen & _ & _ & Hruns & _ & _ & Hd).
  assert (Hdist : pairwise_distinct [1 # 100; 1 # 20; 1 # 1000]%Q).
  { cbn [pairwise_distinct]. repeat split;
      repeat (apply Forall_cons; [discriminate|]); apply Forall_nil. }
  destruct (Hd Hdist) as (E & _).
  exists w', rates. rewrite <- E.
  split; [exact Hout|]. split; [exact Hlen|exact Hruns].
Defined.

(** * Further properties of the decoders *)


Module ShapeFacts.

Lemma is_logical_state_iff (logical_state : str) :
  is_logical_state logical_state = true
  <-> In logical_state [lit "0"; lit "1"].
Proof.
  split; [|apply logical_state_valid].
  unfold is_logical_state. intros H. apply orb_true_iff in H.
  destruct H as [H|H]; apply SweepFacts.str_eqb_eq in H; subst;
    [left|right; left]; reflexivity.
Qed.

Lemma steane_bit_range (bitstring : str) :
  steane_bit bitstring = 0 \/ steane_bit bitstring = 1.
Proof.
  unfold steane_bit, word_label. set (w := received bitstring).
  remember (fold_left (improve w 0) steane7._EVEN_CODEWORDS
              (Z.of_nat steane7.n_physical + 1, 0)) as r eqn:Er.
  assert (Hr : snd r = 0).
  { subst r.
    destruct (SteaneFacts.improve_fold w 0 steane7._EVEN_CODEWORDS
                (Z.of_nat steane7.n_physical + 1) 0)
      as [[E _]|(E & _)]; [rewrite E; reflexivity|exact E]. }
  clear Er. destruct r as [bd bl]. cbn [snd] in Hr. subst bl.
  destruct (SteaneFacts.improve_fold w 1 steane7._ODD_CODEWORDS bd 0)
    as [[E _]|(E & _)]; [rewrite E; left; reflexivity|right; exact E].
Qed.

Lemma count_errors_fold (expected_logical : Z) (its : list (str * Z)) :
  Forall (fun key => 7 <= len key) (keys its) ->
  forall logical_errors,
    steane7.count_errors expected_logical its logical_errors
    = Ok (fold_left (tally steane_bit expected_logical) its logical_errors).
Proof.
  induction its as [|[bitstring shots] rest IH]; intros Hall acc.
  - reflexivity.
  - cbn [steane7.count_errors fold_left].
    inversion Hall as [|? ? Hhd Htl]; subst. cbn [fst] in Hhd.
    rewrite (SteaneFacts.decode_fold bitstring Hhd). cbn [bind].
    rewrite (IH Htl). reflexivity.
Qed.

Lemma count_errors_accepts (expected_logical : Z) (its : list (str * Z)) :
  forall logical_errors n,
    steane7.count_errors expected_logical its logical_errors = Ok n ->
    Forall (fun key => 7 <= len key) (keys its).
Proof.
  induction its as [|[bitstring shots] rest IH]; intros acc n Hok.
  - constructor.
  - cbn [steane7.count_errors] in Hok.
    destruct (Z.lt_ge_cases (len bitstring) 7) as [Hs|Hl].
    + rewrite (SteaneFacts.decode_short bitstring Hs) in Hok. discriminate.
    + rewrite (SteaneFacts.decode_fold bitstring Hl) in Hok.
      cbn [bind] in Hok. constructor; [exact Hl|].
      eapply IH. exact Hok.
Qed.

Ltac vote_shape :=
  intros counts logical_state r; unfold rate_of;
  destruct (is_logical_state logical_state) eqn:Ev; cbn [negb];
  [ apply is_logical_state_iff in Ev;
    split;
    [ intros E; split; [exact Ev|]; split;
      [ apply Forall_forall; intros; exact I |];
      destruct (sum (values counts) =? 0); injection E as <-; reflexivity
    | intros (_ & _ & ->);
      destruct (sum (values counts) =? 0); reflexivity ]
  | split; [discriminate|];
    intros (Hs & _); apply is_logical_state_iff in Hs; congruence ].

Lemma repetition3_shaped :
  shaped RepetitionCode3 repetition3.logical_out (fun _ => True).
Proof.
  split.
  - intros key. unfold repetition3.logical_out.
    destruct (2 <=? _); [right|left]; reflexivity.
  - cbn [logical_error_rate_from_counts RepetitionCode3].
    unfold repetition3.logical_error_rate_from_counts. vote_shape.
Qed.

Lemma shor9_shaped : shaped ShorCode9 shor9.logical_out (fun _ => True).
Proof.
  split.
  - intros key. unfold shor9.logical_out.
    destruct (2 <=? _); [right|left]; reflexivity.
  - cbn [logical_error_rate_from_counts ShorCode9].
    unfold shor9.logical_error_rate_from_counts. vote_shape.
Qed.

Lemma surface_shaped :
  shaped RotatedSurfaceCodeD3 rotated_surface_d3.logical_out (fun _ => True).
Proof.
  split.
  - intros key. unfold rotated_surface_d3.logical_out.
    destruct (3 <=? _); [right|left]; reflexivity.
  - cbn [logical_error_rate_from_counts RotatedSurfaceCodeD3].
    unfold rotated_surface_d3.logical_error_rate_from_counts. vote_shape.
Qed.

Lemma steane_shaped :
  shaped SteaneCode7 steane_bit (fun key => 7 <= len key).
Proof.
  split; [apply steane_bit_range|].
  intros counts logical_state r.
  cbn [logical_error_rate_from_counts SteaneCode7].
  unfold steane7.logical_error_rate_from_counts, rate_of.
  destruct (is_logical_state logical_state) eqn:Ev; cbn [negb].
  - apply is_logical_state_iff in Ev. split.
    + intros E.
      destruct (steane7.count_errors (int_of_str logical_state)
                  (items counts) 0) as [n|e] eqn:Ec; [|discriminate].
      pose proof (count_errors_accepts _ _ _ _ Ec) as Hall.
      rewrite (count_errors_fold _ _ Hall) in Ec. injection Ec as <-.
      cbn [bind] in E. split; [exact Ev|]. split; [exact Hall|].
      destruct (sum (values counts) =? 0); injection E as <-; reflexivity.
    + intros (_ & Hall & ->).
      rewrite (count_errors_fold _ _ Hall). cbn [bind].
      destruct (sum (values counts) =? 0); reflexivity.
  - split; [discriminate|].
    intros (Hs & _). apply is_logical_state_iff in Hs. congruence.
Qed.

Lemma all_shaped (code : BaseCode) :
  In code all_codes ->
  exists logical_out accepts, shaped code logical_out accepts.
Proof.
  intros [<-|[<-|[<-|[<-|[]]]]]; do 2 eexists.
  - apply repetition3_shaped.
  - apply shor9_shaped.
  - apply surface_shaped.
  - apply steane_shaped.
Qed.

Lemma expected_bit (logical_state : str) :
  In logical_state [lit "0"; lit "1"] ->
  (logical_state = lit "0" /\ int_of_str logical_state = 0)
  \/ (logical_state = lit "1" /\ int_of_str logical_state = 1).
Proof.
  intros [<-|[<-|[]]]; [left|right]; split; reflexivity.
Qed.

End ShapeFacts.

(** X1. Every decoder refuses an expected logical state other than "0" and
    "1" with the same ValueError, before it looks at the counts: whatever
    the counts hold, short keys included. *)
Theorem decoders_refuse_other_states (code : BaseCode) (counts : dict str Z)
    (logical_state : str)
    (Hcode : In code all_codes)
    (Hstate : ~ In logical_state [lit "0"; lit "1"]) :
  logical_error_rate_from_counts code counts logical_state
  = Raise (ValueError "Only logical states '0' and '1' are supported.").
Proof.
  assert (Ev : is_logical_state logical_state = false).
  { destruct (is_logical_state logical_state) eqn:E; [|reflexivity].
    apply ShapeFacts.is_logical_state_iff in E. contradiction. }
  destruct Hcode as [<-|[<-|[<-|[<-|[]]]]]; cbn.
  - unfold repetition3.logical_error_rate_from_counts. rewrite Ev.
    reflexivity.
  - unfold shor9.logical_error_rate_from_counts. rewrite Ev. reflexivity.
  - unfold rotated_surface_d3.logical_error_rate_from_counts. rewrite Ev.
    reflexivity.
  - unfold steane7.logical_error_rate_from_counts. rewrite Ev. reflexivity.
Qed.

Lemma decoders_refuse_other_states_witness :
  logical_error_rate_from_counts SteaneCode7 [(lit "01", 3)] "+"
  = Raise (ValueError "Only logical states '0' and '1' are supported.").
Proof.
  apply decoders_refuse_other_states.
  - right. right. right. left. reflexivity.
  - intros [E|[E|[]]]; discriminate E.
Defined.

(** X2. When no frequency of the counts is negative, the rate a decoder
    returns lies between 0 and 1. *)
Theorem rate_in_unit_interval (code : BaseCode) (counts : dict str Z)
    (logical_state : str) (r : Q)
    (Hcode : In code all_codes)
    (Hshots : Forall (fun shots => 0 <= shots) (values counts))
    (Hrate : logical_error_rate_from_counts code counts logical_state
             = Ok r) :
  (0 <= r <= 1)%Q.
Proof.
  destruct (ShapeFacts.all_shaped code Hcode) as (lo & acc & _ & Hshape).
  apply Hshape in Hrate. destruct Hrate as (_ & _ & ->).
  unfold rate_of. destruct (sum (values counts) =? 0) eqn:E.
  - split; discriminate.
  - apply Z.eqb_neq in E. apply RateFacts.true_div_bounds; [|exact E].
    apply RateFacts.tally_bounds. exact Hshots.
Qed.

Lemma rate_in_unit_interval_witness :
  (0 <= 3 # 8 <= 1)%Q.
Proof.
  apply (rate_in_unit_interval ShorCode9
           [(lit "000000000", 5); (lit "110110000", 3)] "0").
  - right. left. reflexivity.
  - repeat constructor; discriminate.
  - reflexivity.
Defined.

(** X3. On the same counts, without a negative frequency and with a total
    frequency other than 0, the rate for the expected state "0" and the
    rate for the expected state "1" are two parts of 1: neither is
    negative and they add up to 1, every key decoding to one of the two
    bits. *)
Theorem rates_of_both_states_sum_to_one (code : BaseCode)
    (counts : dict str Z) (r0 r1 : Q)
    (Hcode : In code all_codes)
    (Hshots : Forall (fun shots => 0 <= shots) (values counts))
    (Htotal : sum (values counts) <> 0)
    (Hzero : logical_error_rate_from_counts code counts "0" = Ok r0)
    (Hone : logical_error_rate_from_counts code counts "1" = Ok r1) :
  (0 <= r0)%Q /\ (0 <= r1)%Q /\ (r0 + r1 == 1)%Q.
Proof.
  destruct (ShapeFacts.all_shaped code Hcode) as (lo & acc & Hbit & Hshape).
  apply Hshape in Hzero. destruct Hzero as (_ & _ & ->).
  apply Hshape in Hone. destruct Hone as (_ & _ & ->).
  unfold rate_of. apply Z.eqb_neq in Htotal. rewrite Htotal.
  apply Z.eqb_neq in Htotal.
  split; [|split].
  - apply RateFacts.true_div_bounds; [|exact Htotal].
    apply RateFacts.tally_bounds. exact Hshots.
  - apply RateFacts.true_div_bounds; [|exact Htotal].
    apply RateFacts.tally_bounds. exact Hshots.
  - apply RateFacts.true_div_complement; [|exact Htotal].
    change (int_of_str "0") with 0. change (int_of_str "1") with 1.
    apply RateFacts.tally_complement. exact Hbit.
Qed.

Lemma rates_of_both_states_sum_to_one_witness :
  (0 <= 2 # 7)%Q /\ (0 <= 5 # 7)%Q /\ ((2 # 7) + (5 # 7) == 1)%Q.
Proof.
  apply (rates_of_both_states_sum_to_one SteaneCode7
           [(lit "0000001", 5); (lit "1111110", 2)]).
  - right. right. right. left. reflexivity.
  - repeat constructor; discriminate.
  - discriminate.
  - reflexivity.
  - reflexivity.
Defined.

(** X4. The order in which the counts mapping lists its items does not
    matter: when a decoder returns a rate on some counts, it returns the
    same rate on the same items in any other order. *)
Theorem rate_ignores_item_order (code : BaseCode)
    (counts counts' : dict str Z) (logical_state : str) (r : Q)
    (Hcode : In code all_codes)
    (Hperm : Permutation counts counts')
    (Hrate : logical_error_rate_from_counts code counts logical_state
             = Ok r) :
  logical_error_rate_from_counts code counts' logical_state = Ok r.
Proof.
  destruct (ShapeFacts.all_shaped code Hcode) as (lo & acc & _ & Hshape).
  apply Hshape in Hrate. destruct Hrate as (Hs & Hacc & ->).
  apply Hshape. split; [exact Hs|]. split.
  - unfold keys in *. eapply Permutation_Forall; [|exact Hacc].
    apply Permutation_map. exact Hperm.
  - unfold rate_of, items.
    rewrite (RateFacts.sum_permutation (values counts) (values counts'))
      by (apply Permutation_map; exact Hperm).
    rewrite (RateFacts.tally_permutation lo (int_of_str logical_state)
               counts counts' Hperm).
    reflexivity.
Qed.

Lemma rate_ignores_item_order_witness :
  logical_error_rate_from_counts RotatedSurfaceCodeD3
    [(lit "111111111", 1); (lit "000000000", 3)] "0" = Ok (1 # 4)%Q.
Proof.
  apply (rate_ignores_item_order RotatedSurfaceCodeD3
           [(lit "000000000", 3); (lit "111111111", 1)]).
  - right. right. left. reflexivity.
  - apply perm_swap.
  - reflexivity.
Defined.

(** X5. A rate depends on the proportions of the frequencies only: when a
    decoder returns a rate on some counts, it returns the same rate on the
    counts with every frequency multiplied by the same integer other than
    0. *)
Theorem rate_ignores_common_factor (code : BaseCode) (counts : dict str Z)
    (logical_state : str) (c : Z) (r : Q)
    (Hcode : In code all_codes)
    (Hc : c <> 0)
    (Hrate : logical_error_rate_from_counts code counts logical_state
             = Ok r) :
  logical_error_rate_from_counts code (scale c counts) logical_state = Ok r.
Proof.
  destruct (ShapeFacts.all_shaped code Hcode) as (lo & acc & _ & Hshape).
  apply Hshape in Hrate. destruct Hrate as (Hs & Hacc & ->).
  apply Hshape. split; [exact Hs|]. split.
  - rewrite RateFacts.keys_scale. exact Hacc.
  - unfold rate_of, items.
    rewrite RateFacts.sum_scale, RateFacts.tally_scale.
    destruct (sum (values counts) =? 0) eqn:E.
    + apply Z.eqb_eq in E. rewrite E, Z.mul_0_r. reflexivity.
    + apply Z.eqb_neq in E.
      replace (c * sum (values counts) =? 0) with false
        by (symmetry; apply Z.eqb_neq; nia).
      symmetry. apply RateFacts.true_div_scale; assumption.
Qed.

Lemma rate_ignores_common_factor_witness :
  logical_error_rate_from_counts RepetitionCode3
    (scale 4 [(lit "000", 900); (lit "111", 100)]) "0" = Ok (1 # 10)%Q.
Proof.
  apply rate_ignores_common_factor.
  - left. reflexivity.
  - discriminate.
  - reflexivity.
Defined.

(** * Error correction *)

Module CountFacts.

Lemma str_count_app (c : ascii) (s t : str) :
  str_count c (s ++ t) = str_count c s + str_count c t.
Proof.
  induction s as [|x s IH]; cbn [app str_count]; [lia|]. rewrite IH. lia.
Qed.

Lemma str_count_rev (c : ascii) (s : str) :
  str_count c (rev s) = str_count c s.
Proof.
  induction s as [|x s IH]; cbn [rev]; [reflexivity|].
  rewrite str_count_app, IH. cbn [str_count]. lia.
Qed.

End CountFacts.

(** X6. The two-level vote of ShorCode9 outvotes any three errors: a key of
    9 characters with at most three '1' decodes to 0, and one with at least
    six '1' decodes to 1, wherever these characters stand. *)
Theorem shor9_outvotes_three_errors (key : str) (Hlen : len key = 9) :
  (str_count one key <= 3 -> shor9.logical_out key = 0)
  /\ (6 <= str_count one key -> shor9.logical_out key = 1).
Proof.
  rewrite shor9_logical_out_blocks by (unfold len in Hlen; lia).
  rewrite <- (CountFacts.str_count_rev one key).
  change (rev key) with (reversed key).
  assert (Hw : List.length (reversed key) = 9%nat)
    by (unfold reversed, len in *; rewrite length_rev; lia).
  destruct (reversed key)
    as [|c0 [|c1 [|c2 [|c3 [|c4 [|c5 [|c6 [|c7 [|c8 [|c9 rest]]]]]]]]]];
    try discriminate Hw.
  clear Hw Hlen.
  unfold hierarchical_majority, block_majority, bit_at.
  cbn [Nat.add Nat.mul nth_error str_count].
  destruct (Ascii.eqb c0 one), (Ascii.eqb c1 one), (Ascii.eqb c2 one),
    (Ascii.eqb c3 one), (Ascii.eqb c4 one), (Ascii.eqb c5 one),
    (Ascii.eqb c6 one), (Ascii.eqb c7 one), (Ascii.eqb c8 one);
    split; intros Hc; try reflexivity; exfalso; lia.
Qed.

Lemma shor9_outvotes_three_errors_witness :
  shor9.logical_out (lit "100010001") = 0.
Proof.
  apply (proj1 (shor9_outvotes_three_errors (lit "100010001")
                  ltac:(reflexivity))).
  vm_compute. discriminate.
Defined.

(** X7. The row and column votes of RotatedSurfaceCodeD3 tolerate any three
    errors among the nine data bits: a key of at least 9 characters whose
    data bits (the first 9 characters of the reversed key) hold at most
    three '1' decodes to 0, and one whose data bits hold at least six '1'
    decodes to 1. *)
Theorem surface_tolerates_three_errors (key : str) (Hlen : 9 <= len key) :
  (str_count one (slice_to 9 (reversed key)) <= 3 ->
   rotated_surface_d3.logical_out key = 0)
  /\ (6 <= str_count one (slice_to 9 (reversed key)) ->
      rotated_surface_d3.logical_out key = 1).
Proof.
  rewrite surface_logical_out_votes by (unfold len in Hlen; lia).
  assert (Hw : (9 <= List.length (reversed key))%nat)
    by (unfold reversed, len in *; rewrite length_rev; lia).
  destruct (reversed key)
    as [|c0 [|c1 [|c2 [|c3 [|c4 [|c5 [|c6 [|c7 [|c8 rest]]]]]]]]];
    simpl in Hw; try lia.
  clear Hw Hlen.
  unfold pooled_votes, row_majority, column_majority, block_majority, bit_at,
    slice_to.
  cbn [seq map firstn Nat.add Nat.mul nth_error app str_count].
  destruct (Ascii.eqb c0 one), (Ascii.eqb c1 one), (Ascii.eqb c2 one),
    (Ascii.eqb c3 one), (Ascii.eqb c4 one), (Ascii.eqb c5 one),
    (Ascii.eqb c6 one), (Ascii.eqb c7 one), (Ascii.eqb c8 one);
    split; intros Hc; try reflexivity; exfalso; lia.
Qed.

Lemma surface_tolerates_three_errors_witness :
  rotated_surface_d3.logical_out (lit "10110101000001011") = 0.
Proof.
  apply (proj1 (surface_tolerates_three_errors (lit "10110101000001011")
                  ltac:(vm_compute; discriminate))).
  vm_compute. discriminate.
Defined.

Module HammingFacts.

Lemma hamming_cons (x y : ascii) (a b : str) :
  hamming (x :: a) (y :: b)
  = (if Ascii.eqb x y then 0 else 1) + hamming a b.
Proof.
  unfold hamming. cbn [combine map]. rewrite RateFacts.sum_cons.
  destruct (Ascii.eqb x y); reflexivity.
Qed.

Lemma hamming_nil_l (b : str) : hamming [] b = 0.
Proof. reflexivity. Qed.

Lemma hamming_nil_r (a : str) : hamming a [] = 0.
Proof. destruct a; reflexivity. Qed.

Lemma hamming_sym (a b : str) : hamming a b = hamming b a.
Proof.
  revert b. induction a as [|x a IH]; intros [|y b];
    try reflexivity.
  rewrite !hamming_cons, (IH b), (Ascii.eqb_sym x y). reflexivity.
Qed.

Lemma hamming_zero (a b : str) :
  List.length a = List.length b -> (hamming a b = 0 <-> a = b).
Proof.
  revert b. induction a as [|x a IH]; intros [|y b] Hlen;
    try discriminate Hlen.
  - split; reflexivity.
  - injection Hlen as Hlen. rewrite hamming_cons.
    pose proof (SteaneFacts.hamming_bounds a b) as Hb.
    destruct (Ascii.eqb x y) eqn:E.
    + apply Ascii.eqb_eq in E. subst y. split.
      * intros H0. f_equal. apply (IH b Hlen). lia.
      * intros Heq. injection Heq as Heq. apply (IH b Hlen) in Heq. lia.
    + apply Ascii.eqb_neq in E. split; [lia|].
      intros Heq. injection Heq as -> _. contradiction.
Qed.

Lemma hamming_triangle (a b c : str) :
  List.length a = List.length b -> List.length b = List.length c ->
  hamming a c <= hamming a b + hamming b c.
Proof.
  revert b c. induction a as [|x a IH]; intros [|y b] [|z c] Hab Hbc;
    try discriminate Hab; try discriminate Hbc.
  - cbn. lia.
  - injection Hab as Hab. injection Hbc as Hbc.
    rewrite !hamming_cons. specialize (IH b c Hab Hbc).
    destruct (Ascii.eqb x z) eqn:Exz, (Ascii.eqb x y) eqn:Exy,
      (Ascii.eqb y z) eqn:Eyz; try lia.
    apply Ascii.eqb_eq in Exy. apply Ascii.eqb_eq in Eyz. subst.
    rewrite Ascii.eqb_refl in Exz. discriminate.
Qed.

(** A codeword of one table differs from a codeword of the other in at
    least three positions. *)
Lemma tables_three_apart (c0 c1 : str) :
  In c0 steane7._EVEN_CODEWORDS -> In c1 steane7._ODD_CODEWORDS ->
  3 <= hamming c0 c1.
Proof.
  intros H0 H1.
  assert (Hall : forallb (fun x => forallb (fun y => 3 <=? hamming x y)
                                     steane7._ODD_CODEWORDS)
                         steane7._EVEN_CODEWORDS = true)
    by (vm_compute; reflexivity).
  rewrite forallb_forall in Hall. specialize (Hall c0 H0).
  rewrite forallb_forall in Hall. specialize (Hall c1 H1).
  apply Z.leb_le. exact Hall.
Qed.

Lemma nearest_is_min_distance (w : str) (table : list str) :
  table <> [] -> min_distance w table (nearest_distance w table).
Proof.
  intros Hne. unfold nearest_distance.
  destruct (SteaneFacts.improve_fold w 0 table (len w + 1) 0)
    as [[_ Hge]|(_ & _ & Hmin)]; [|exact Hmin].
  exfalso. destruct table as [|cw rest]; [contradiction|].
  specialize (Hge cw (or_introl eq_refl)).
  pose proof (SteaneFacts.hamming_bounds w cw). lia.
Qed.

Lemma codeword_length (cw : str) :
  In cw (steane7._EVEN_CODEWORDS ++ steane7._ODD_CODEWORDS) ->
  List.length cw = 7%nat.
Proof.
  intros Hin. pose proof SteaneFacts.codewords_length as Hall.
  rewrite Forall_forall in Hall. specialize (Hall cw Hin).
  unfold len in Hall. lia.
Qed.

End HammingFacts.

(** X8. [_hamming_distance] is a distance on words of equal length: it
    raises exactly when the lengths differ; otherwise the distance lies
    between 0 and the common length, is 0 exactly for equal words, is the
    same in both directions, and satisfies the triangle inequality. *)
Theorem hamming_distance_is_a_metric (a b c : str) :
  (len a <> len b ->
   steane7._hamming_distance a b
   = Raise (ValueError "Bitstrings must have the same length."))
  /\ (len a = len b ->
      exists d,
        steane7._hamming_distance a b = Ok d
        /\ steane7._hamming_distance b a = Ok d
        /\ 0 <= d <= len a
        /\ (d = 0 <-> a = b))
  /\ (forall dab dbc,
         steane7._hamming_distance a b = Ok dab ->
         steane7._hamming_distance b c = Ok dbc ->
         exists dac,
           steane7._hamming_distance a c = Ok dac /\ dac <= dab + dbc).
Proof.
  split; [|split].
  - intros Hne. unfold steane7._hamming_distance.
    apply Z.eqb_neq in Hne. rewrite Hne. reflexivity.
  - intros Heq. exists (hamming a b).
    split; [apply SteaneFacts.hamming_distance_ok; exact Heq|].
    split.
    + rewrite HammingFacts.hamming_sym.
      apply SteaneFacts.hamming_distance_ok. symmetry. exact Heq.
    + split; [apply SteaneFacts.hamming_bounds|].
      apply HammingFacts.hamming_zero. unfold len in Heq. lia.
  - intros dab dbc Hab Hbc. unfold steane7._hamming_distance in *.
    destruct (len a =? len b) eqn:Eab; [|discriminate].
    destruct (len b =? len c) eqn:Ebc; [|discriminate].
    cbn [negb] in Hab, Hbc. injection Hab as <-. injection Hbc as <-.
    apply Z.eqb_eq in Eab. apply Z.eqb_eq in Ebc.
    replace (len a =? len c) with true
      by (symmetry; apply Z.eqb_eq; lia).
    cbn [negb]. eexists. split; [reflexivity|].
    apply HammingFacts.hamming_triangle; unfold len in *; lia.
Qed.

(** X9. SteaneCode7 decodes to the nearest table: on a key of at least 7
    characters each table has a least distance to the received word, and
    the decoder returns 1 when the ONE table is strictly nearer and 0
    otherwise. *)
Theorem steane_decodes_to_nearest_table (bitstring : str)
    (Hlen : 7 <= len bitstring) :
  exists d0 d1,
    min_distance (received bitstring) steane7._EVEN_CODEWORDS d0
    /\ min_distance (received bitstring) steane7._ODD_CODEWORDS d1
    /\ (d1 < d0 -> steane7._decode_logical_bit bitstring = Ok 1)
    /\ (d0 <= d1 -> steane7._decode_logical_bit bitstring = Ok 0).
Proof.
  set (w := received bitstring).
  assert (H0 : min_distance w steane7._EVEN_CODEWORDS
                 (nearest_distance w steane7._EVEN_CODEWORDS))
    by (apply HammingFacts.nearest_is_min_distance; discriminate).
  assert (H1 : min_distance w steane7._ODD_CODEWORDS
                 (nearest_distance w steane7._ODD_CODEWORDS))
    by (apply HammingFacts.nearest_is_min_distance; discriminate).
  exists (nearest_distance w steane7._EVEN_CODEWORDS),
    (nearest_distance w steane7._ODD_CODEWORDS).
  split; [exact H0|]. split; [exact H1|].
  rewrite (SteaneFacts.decode_nearest bitstring _ _ Hlen H0 H1).
  split; intros Hd.
  - apply Z.ltb_lt in Hd. rewrite Hd. reflexivity.
  - apply Z.ltb_ge in Hd. rewrite Hd. reflexivity.
Qed.

Lemma steane_decodes_to_nearest_table_witness :
  exists d0 d1,
    min_distance (received (lit "1110111")) steane7._EVEN_CODEWORDS d0
    /\ min_distance (received (lit "1110111")) steane7._ODD_CODEWORDS d1
    /\ (d1 < d0 -> steane7._decode_logical_bit (lit "1110111") = Ok 1)
    /\ (d0 <= d1 -> steane7._decode_logical_bit (lit "1110111") = Ok 0).
Proof.
  apply steane_decodes_to_nearest_table. vm_compute. discriminate.
Defined.

(** X10. SteaneCode7 corrects one error: a key of at least 7 characters
    whose received word differs in at most one position from a codeword of
    the ZERO table decodes to 0, and one whose received word differs in at
    most one position from a codeword of the ONE table decodes to 1. *)
Theorem steane_corrects_one_error (bitstring cw : str)
    (Hlen : 7 <= len bitstring)
    (Hnear : hamming (received bitstring) cw <= 1) :
  (In cw steane7._EVEN_CODEWORDS ->
   steane7._decode_logical_bit bitstring = Ok 0)
  /\ (In cw steane7._ODD_CODEWORDS ->
      steane7._decode_logical_bit bitstring = Ok 1).
Proof.
  set (w := received bitstring) in *.
  assert (Hw : List.length w = 7%nat).
  { pose proof (SteaneFacts.received_length bitstring Hlen) as E.
    unfold len in E. fold w in E. lia. }
  assert (H0 : min_distance w steane7._EVEN_CODEWORDS
                 (nearest_distance w steane7._EVEN_CODEWORDS))
    by (apply HammingFacts.nearest_is_min_distance; discriminate).
  assert (H1 : min_distance w steane7._ODD_CODEWORDS
                 (nearest_distance w steane7._ODD_CODEWORDS))
    by (apply HammingFacts.nearest_is_min_distance; discriminate).
  rewrite (SteaneFacts.decode_nearest bitstring _ _ Hlen H0 H1).
  destruct H0 as [(c0 & Hc0 & Hd0) Hmin0].
  destruct H1 as [(c1 & Hc1 & Hd1) Hmin1].
  split; intros Hcw.
  - specialize (Hmin0 cw Hcw).
    pose proof (HammingFacts.tables_three_apart cw c1 Hcw Hc1) as H3.
    pose proof (HammingFacts.hamming_triangle cw w c1) as Ht.
    rewrite (HammingFacts.codeword_length cw) in Ht
      by (apply in_or_app; left; exact Hcw).
    rewrite (HammingFacts.codeword_length c1) in Ht
      by (apply in_or_app; right; exact Hc1).
    rewrite Hw in Ht. specialize (Ht eq_refl eq_refl).
    rewrite (HammingFacts.hamming_sym cw w) in Ht.
    replace (_ <? _) with false; [reflexivity|].
    symmetry. apply Z.ltb_ge. lia.
  - specialize (Hmin1 cw Hcw).
    pose proof (HammingFacts.tables_three_apart c0 cw Hc0 Hcw) as H3.
    pose proof (HammingFacts.hamming_triangle c0 w cw) as Ht.
    rewrite (HammingFacts.codeword_length cw) in Ht
      by (apply in_or_app; right; exact Hcw).
    rewrite (HammingFacts.codeword_length c0) in Ht
      by (apply in_or_app; left; exact Hc0).
    rewrite Hw in Ht. specialize (Ht eq_refl eq_refl).
    rewrite (HammingFacts.hamming_sym c0 w) in Ht.
    replace (_ <? _) with true; [reflexivity|].
    symmetry. apply Z.ltb_lt. lia.
Qed.

Lemma steane_corrects_one_error_witness :
  steane7._decode_logical_bit (lit "1101011") = Ok 0.
Proof.
  apply (proj1 (steane_corrects_one_error (lit "1101011") (lit "1101001")
                  ltac:(vm_compute; discriminate)
                  ltac:(vm_compute; discriminate))).
  right. right. right. right. right. right. right. left. reflexivity.
Defined.

Module ComplementFacts.

Lemma Forall_firstn_bits (n : nat) (s : str) :
  Forall is_bit s -> Forall is_bit (firstn n s).
Proof.
  intros Hs. revert n. induction Hs as [|c s Hc _ IH]; intros [|n];
    cbn [firstn]; constructor; [exact Hc|apply IH].
Qed.

Lemma received_complement (key : str) :
  received (complement key) = map flip (received key).
Proof.
  unfold received, complement, slice_to, reversed.
  rewrite <- map_rev, firstn_map. reflexivity.
Qed.

Lemma received_bits (key : str) :
  Forall is_bit key -> Forall is_bit (received key).
Proof.
  intros Hk. unfold received, slice_to, reversed.
  apply Forall_firstn_bits. apply Forall_rev. exact Hk.
Qed.

Lemma bit_words_complete (w : str) :
  Forall is_bit w -> In w (bit_words (List.length w)).
Proof.
  induction 1 as [|c w Hc _ IH]; cbn [List.length bit_words].
  - left. reflexivity.
  - apply in_or_app. destruct Hc as [->| ->]; [left|right];
      apply in_map; exact IH.
Qed.

Lemma flipped_word_flipped_label (w : str) :
  List.length w = 7%nat -> Forall is_bit w ->
  word_label (map flip w) = 1 - word_label w.
Proof.
  intros Hlen Hbits.
  pose proof (bit_words_complete w Hbits) as Hin. rewrite Hlen in Hin.
  assert (Hall :
    forallb (fun v => word_label (map flip v) =? 1 - word_label v)
            (bit_words 7) = true)
    by (vm_compute; reflexivity).
  rewrite forallb_forall in Hall. apply Z.eqb_eq. apply (Hall w Hin).
Qed.

Lemma decode_bit (bitstring : str) :
  7 <= len bitstring ->
  steane7._decode_logical_bit bitstring = Ok (steane_bit bitstring).
Proof. intros Hlen. apply (SteaneFacts.decode_fold bitstring Hlen). Qed.

End ComplementFacts.

(** X11. SteaneCode7 treats the two logical values alike: when a key of at
    least 7 characters, all '0' or '1', decodes to a bit, the key with every
    bit flipped decodes to the other bit. *)
Theorem steane_complement_decodes_to_other_bit (bitstring : str) (b : Z)
    (Hlen : 7 <= len bitstring)
    (Hbits : Forall is_bit bitstring)
    (Hdec : steane7._decode_logical_bit bitstring = Ok b) :
  steane7._decode_logical_bit (complement bitstring) = Ok (1 - b).
Proof.
  rewrite (ComplementFacts.decode_bit bitstring Hlen) in Hdec.
  injection Hdec as <-.
  assert (Hlen' : 7 <= len (complement bitstring))
    by (unfold complement, len in *; rewrite length_map; exact Hlen).
  rewrite (ComplementFacts.decode_bit (complement bitstring) Hlen').
  f_equal. unfold steane_bit.
  rewrite ComplementFacts.received_complement.
  apply ComplementFacts.flipped_word_flipped_label.
  - pose proof (SteaneFacts.received_length bitstring Hlen) as E.
    unfold len in E. lia.
  - apply ComplementFacts.received_bits. exact Hbits.
Qed.

Lemma steane_complement_decodes_to_other_bit_witness :
  steane7._decode_logical_bit (complement (lit "0100110")) = Ok (1 - 0).
Proof.
  apply steane_complement_decodes_to_other_bit.
  - vm_compute. discriminate.
  - repeat constructor; (left; reflexivity) || (right; reflexivity).
  - reflexivity.
Defined.

(** * Further properties of the noise models and the sweep *)

Module NoiseFacts.

Lemma in_unit_interval_iff (p : Q) :
  noise.in_unit_interval p = true <-> (0 <= p <= 1)%Q.
Proof.
  unfold noise.in_unit_interval. rewrite andb_true_iff, !Qle_bool_iff.
  reflexivity.
Qed.

Lemma in_unit_interval_false (p : Q) :
  ~ (0 <= p <= 1)%Q -> noise.in_unit_interval p = false.
Proof.
  intros Hn. destruct (noise.in_unit_interval p) eqn:E; [|reflexivity].
  apply in_unit_interval_iff in E. contradiction.
Qed.

End NoiseFacts.

(** X12. Each of the four noise-model builders accepts exactly the
    strengths from 0 to 1, both ends included: for such a strength it
    returns a noise model, for any other strength it raises the ValueError
    with its own message, which names the probability p for the bit-flip,
    phase-flip and depolarizing builders and the damping parameter gamma
    for the amplitude-damping builder. *)
Theorem noise_builders_accept_unit_interval (p : Q) :
  Forall
    (fun '(noise_builder, message) =>
       ((0 <= p <= 1)%Q -> exists m, noise_builder p = Ok m)
       /\ (~ (0 <= p <= 1)%Q ->
           noise_builder p = Raise (ValueError message)))
    [(noise.bit_flip_noise_model,
      "Probability p must be between 0 and 1."%string);
     (noise.phase_flip_noise_model,
      "Probability p must be between 0 and 1."%string);
     (noise.depolarizing_noise_model,
      "Probability p must be between 0 and 1."%string);
     (noise.amplitude_damping_noise_model,
      "Damping parameter gamma must be between 0 and 1."%string)].
Proof.
  repeat (apply Forall_cons; [|try apply Forall_nil]);
    unfold noise.bit_flip_noise_model, noise.phase_flip_noise_model,
      noise.depolarizing_noise_model, noise.amplitude_damping_noise_model;
    (split;
     [ intros Hp; apply NoiseFacts.in_unit_interval_iff in Hp; rewrite Hp;
       cbn [negb]; eexists; reflexivity
     | intros Hp; apply NoiseFacts.in_unit_interval_false in Hp; rewrite Hp;
       cbn [negb]; reflexivity ]).
Qed.

Module BaselineFacts.

Lemma filtered_bounds (keep : str * Z -> bool) (its : list (str * Z)) :
  Forall (fun shots => 0 <= shots) (values its) ->
  0 <= sum (map snd (filter keep its)) <= sum (values its).
Proof.
  unfold values. induction its as [|[key shots] rest IH]; intros Hnn.
  - cbn. lia.
  - cbn [map snd filter] in *. inversion Hnn as [|? ? Hs Hrest]; subst.
    specialize (IH Hrest). rewrite RateFacts.sum_cons.
    destruct (keep (key, shots)); cbn [map snd];
      rewrite ?RateFacts.sum_cons; lia.
Qed.

End BaselineFacts.


(** X14. With a logical state "0" or "1", a known category and a strength
    from 0 to 1, [run_physical_qubit] runs the simulator exactly once, on
    the one-qubit circuit with the requested shots, and returns the share
    of the frequencies that lie on keys other than the logical state (0 for
    a total of 0); the result lies between 0 and 1 when no frequency is
    negative. *)
Theorem physical_qubit_rate (rng : Type)
    (backend : QuantumCircuit -> noise.NoiseModel -> Z -> rng
               -> dict str Z * rng)
    (p : Q) (logical_state : str) (shots : Z) (noise_type : str)
    (w : sweep.world rng)
    (Hstate : In logical_state [lit "0"; lit "1"])
    (Hnoise : In noise_type (keys sweep._NOISE_BUILDERS))
    (Hp : (0 <= p <= 1)%Q) :
  exists noise_model counts seed' r,
    backend (baseline_circuit logical_state) noise_model shots (sweep.seed w)
    = (counts, seed')
    /\ sweep.run_physical_qubit backend p logical_state shots noise_type w
       = (sweep.mkWorld
            (sweep.trace w
               ++ [sweep.SimulatorRun (baseline_circuit logical_state)
                                      noise_model shots])
            seed',
          Ok r)
    /\ r = (if sum (values counts) =? 0 then 0%Q
            else true_div (wrong_shots logical_state counts)
                          (sum (values counts)))
    /\ (Forall (fun n => 0 <= n) (values counts) -> (0 <= r <= 1)%Q).
Proof.
  destruct (SweepFacts.lookup_known noise_type Hnoise) as (nb & Hl & Hb).
  apply NoiseFacts.in_unit_interval_iff in Hp.
  destruct (proj1 (Hb p) Hp) as [m Hm].
  destruct (backend (baseline_circuit logical_state) m shots (sweep.seed w))
    as [counts seed'] eqn:Eb.
  exists m, counts, seed',
    (if sum (values counts) =? 0 then 0%Q
     else true_div (wrong_shots logical_state counts) (sum (values counts))).
  split; [exact Eb|].
  unfold sweep.run_physical_qubit.
  rewrite (logical_state_valid logical_state Hstate).
  apply SweepFacts.dict_mem_keys in Hnoise. rewrite Hnoise. cbn [negb].
  unfold sweep.iobind, sweep.lift, sweep.simulate. rewrite Hl, Hm.
  fold (baseline_circuit logical_state). rewrite Eb.
  fold (wrong_shots logical_state counts).
  split; [|split].
  - destruct (sum (values counts) =? 0); reflexivity.
  - reflexivity.
  - intros Hnn. destruct (sum (values counts) =? 0) eqn:E.
    + split; discriminate.
    + apply Z.eqb_neq in E. apply RateFacts.true_div_bounds; [|exact E].
      apply BaselineFacts.filtered_bounds. exact Hnn.
Qed.

Lemma physical_qubit_rate_witness :
  exists noise_model counts seed' r,
    sweep.ideal_backend (baseline_circuit "1") noise_model 512
                        (sweep.seed sweep.start)
    = (counts, seed')
    /\ sweep.run_physical_qubit sweep.ideal_backend (1 # 20) "1" 512
                                "depolarizing" sweep.start
       = (sweep.mkWorld
            (sweep.trace sweep.start
               ++ [sweep.SimulatorRun (baseline_circuit "1")
                                      noise_model 512])
            seed',
          Ok r)
    /\ r = (if sum (values counts) =? 0 then 0%Q
            else true_div (wrong_shots "1" counts) (sum (values counts)))
    /\ (Forall (fun n => 0 <= n) (values counts) -> (0 <= r <= 1)%Q).
Proof.
  apply physical_qubit_rate.
  - right. left. reflexivity.
  - right. left. reflexivity.
  - split; discriminate.
Defined.

Module TraceFacts.
Import sweep.

Lemma remember_keeps (seen : list Q) (p k : Q) :
  In k seen -> In k (remember_key seen p).
Proof.
  intros Hin. unfold remember_key.
  destruct (existsb _ seen); [exact Hin|]. apply in_or_app. left. exact Hin.
Qed.

Lemma remember_has (seen : list Q) (p : Q) :
  exists k, In k (remember_key seen p) /\ Qeq_bool k p = true.
Proof.
  unfold remember_key.
  destruct (existsb (fun k => Qeq_bool k p) seen) eqn:E.
  - apply existsb_exists in E. exact E.
  - exists p. split; [apply in_or_app; right; left; reflexivity|].
    apply Qeq_bool_iff. reflexivity.
Qed.

Lemma remembered (ps : list Q) (p : Q) :
  In p ps ->
  forall seen,
  exists k, In k (fold_left remember_key ps seen) /\ Qeq_bool k p = true.
Proof.
  assert (Hkeep : forall qs seen k,
             In k seen -> In k (fold_left remember_key qs seen)).
  { induction qs as [|q qs IHq]; intros seen k Hin; cbn [fold_left].
    - exact Hin.
    - apply IHq. apply remember_keeps. exact Hin. }
  induction ps as [|q ps IH]; intros Hin seen; [destruct Hin|].
  cbn [fold_left]. destruct Hin as [->|Hin].
  - destruct (remember_has seen p) as (k & Hk & Ek).
    exists k. split; [apply Hkeep; exact Hk|exact Ek].
  - apply IH. exact Hin.
Qed.

Lemma dict_get_key (d : dict Q Q) (p k : Q) :
  In k (keys d) -> Qeq_bool k p = true ->
  exists v, dict_get Qeq_bool p d = Some v.
Proof.
  unfold keys. induction d as [|[k' v'] d IH]; intros Hin Ek;
    [destruct Hin|].
  cbn [dict_get]. destruct (Qeq_bool k' p) eqn:E; [eexists; reflexivity|].
  destruct Hin as [Hk|Hin]; [cbn [fst] in Hk; congruence|].
  apply IH; assumption.
Qed.

End TraceFacts.

(** X15. With an empty list of strengths and a known category, the sweep
    returns the empty mapping and does nothing: it consults neither the
    simulator nor the code, so even a logical state the code would refuse
    goes unnoticed. *)
Theorem grid_empty_sweep (rng : Type)
    (backend : QuantumCircuit -> noise.NoiseModel -> Z -> rng
               -> dict str Z * rng)
    (code : BaseCode) (noise_type logical_state : str) (shots : Z)
    (w : sweep.world rng)
    (Hnoise : In noise_type (keys sweep._NOISE_BUILDERS)) :
  sweep.run_code_on_noise_grid backend code [] noise_type logical_state
                               shots w
  = (w, Ok []).
Proof.
  destruct (SweepFacts.lookup_known noise_type Hnoise) as (nb & Hl & _).
  rewrite (SweepFacts.grid_known rng backend code [] noise_type
             logical_state shots w nb Hnoise Hl).
  reflexivity.
Qed.

Lemma grid_empty_sweep_witness :
  sweep.run_code_on_noise_grid sweep.ideal_backend SteaneCode7 []
                               "amplitude_damping" "+" 4096 sweep.start
  = (sweep.start, Ok []).
Proof.
  apply grid_empty_sweep. right. right. left. reflexivity.
Defined.

(** X16. For a known category, strengths that are all from 0 to 1 and a
    code that builds its circuit and whose decoder returns a rate on the
    counts the simulator gives for it, the sweep handles the strengths one
    after the other in the order of the list: for each it runs the
    simulator once, on the code's circuit with the requested shots and the
    noise model the category's builder makes for that strength, from the
    state in which the run before left the simulator, and then prints the
    line with the rate the code's decoder returns on the counts of that
    run; nothing else is added to the trace, and the simulator is left in
    the state after the last run. *)
Theorem grid_trace_follows_strengths (rng : Type)
    (backend : QuantumCircuit -> noise.NoiseModel -> Z -> rng
               -> dict str Z * rng)
    (code : BaseCode) (ps : list Q) (noise_type logical_state : str)
    (shots : Z) (w : sweep.world rng) (circuit : QuantumCircuit)
    (Hnoise : In noise_type (keys sweep._NOISE_BUILDERS))
    (Hps : Forall (fun p => (0 <= p <= 1)%Q) ps)
    (Hbuild : build_circuit code logical_state = Ok circuit)
    (Hdec : decodes_runs backend code logical_state shots circuit) :
  exists noise_builder models rates,
    sweep.lookup_builder noise_type = Ok noise_builder
    /\ Forall2 (fun p m => noise_builder p = Ok m) ps models
    /\ Forall2 (fun counts r =>
                  logical_error_rate_from_counts code counts logical_state
                  = Ok r)
               (fst (simulated backend circuit shots models (sweep.seed w)))
               rates
    /\ fst (sweep.run_code_on_noise_grid backend code ps noise_type
                                         logical_state shots w)
       = sweep.mkWorld
           (sweep.trace w
              ++ flat_map (point_events circuit shots (name code)
                                        noise_type)
                          (combine (combine ps models) rates))
           (snd (simulated backend circuit shots models (sweep.seed w))).
Proof.
  destruct (SweepFacts.lookup_range_error noise_type Hnoise)
    as (nb & Hl & Hin & _).
  assert (Hps' : Forall (fun p => noise.in_unit_interval p = true) ps).
  { eapply Forall_impl; [|exact Hps]. intros p Hp.
    apply NoiseFacts.in_unit_interval_iff. exact Hp. }
  destruct (SweepFacts.grid_loop_runs rng backend code nb noise_type
              logical_state shots circuit ps Hin Hbuild Hdec Hps' [] w)
    as (models & rates & Hms & Hrs & Hrun).
  exists nb, models, rates.
  rewrite (SweepFacts.grid_known rng backend code ps noise_type
             logical_state shots w nb Hnoise Hl).
  split; [exact Hl|]. split; [exact Hms|]. split; [exact Hrs|].
  rewrite Hrun. reflexivity.
Qed.

Lemma grid_trace_follows_strengths_witness :
  exists noise_builder models rates,
    sweep.lookup_builder "bit_flip" = Ok noise_builder
    /\ Forall2 (fun p m => noise_builder p = Ok m)
               [1 # 50; 1 # 100]%Q models
    /\ Forall2 (fun counts r =>
                  logical_error_rate_from_counts RepetitionCode3 counts "0"
                  = Ok r)
               (fst (simulated sweep.ideal_backend
                       (mkCircuit 3 3
                          [CX 0 1; CX 0 2;
                           Measure 0 0; Measure 1 1; Measure 2 2])
                       2048 models (sweep.seed sweep.start)))
               rates
    /\ fst (sweep.run_code_on_noise_grid sweep.ideal_backend
              RepetitionCode3 [1 # 50; 1 # 100]%Q "bit_flip" "0" 2048
              sweep.start)
       = sweep.mkWorld
           (sweep.trace sweep.start
              ++ flat_map (point_events
                             (mkCircuit 3 3
                                [CX 0 1; CX 0 2;
                                 Measure 0 0; Measure 1 1; Measure 2 2])
                             2048 (name RepetitionCode3) "bit_flip")
                          (combine (combine [1 # 50; 1 # 100]%Q models)
                                   rates))
           (snd (simulated sweep.ideal_backend
                   (mkCircuit 3 3
                      [CX 0 1; CX 0 2;
                       Measure 0 0; Measure 1 1; Measure 2 2])
                   2048 models (sweep.seed sweep.start))).
Proof.
  apply grid_trace_follows_strengths.
  - left. reflexivity.
  - repeat constructor; discriminate.
  - reflexivity.
  - intros noise_model s. eexists. vm_compute. reflexivity.
Defined.

(** X17. Under the same conditions every requested strength can be looked
    up in the mapping the sweep returns, a strength requested more than
    once included. *)
Theorem grid_result_has_every_strength (rng : Type)
    (backend : QuantumCircuit -> noise.NoiseModel -> Z -> rng
               -> dict str Z * rng)
    (code : BaseCode) (ps : list Q) (noise_type logical_state : str)
    (shots : Z) (w : sweep.world rng) (circuit : QuantumCircuit)
    (Hnoise : In noise_type (keys sweep._NOISE_BUILDERS))
    (Hps : Forall (fun p => (0 <= p <= 1)%Q) ps)
    (Hbuild : build_circuit code logical_state = Ok circuit)
    (Hdec : decodes_runs backend code logical_state shots circuit) :
  exists w' results,
    sweep.run_code_on_noise_grid backend code ps noise_type logical_state
                                 shots w
    = (w', Ok results)
    /\ forall p, In p ps ->
         exists rate, dict_get Qeq_bool p results = Some rate.
Proof.
  destruct (SweepFacts.lookup_range_error noise_type Hnoise)
    as (nb & Hl & Hin & _).
  assert (Hps' : Forall (fun p => noise.in_unit_interval p = true) ps).
  { eapply Forall_impl; [|exact Hps]. intros p Hp.
    apply NoiseFacts.in_unit_interval_iff. exact Hp. }
  destruct (SweepFacts.grid_loop_runs rng backend code nb noise_type
              logical_state shots circuit ps Hin Hbuild Hdec Hps' [] w)
    as (models & rates & Hms & Hrs & Hrun).
  destruct (SweepFacts.rates_length rng backend code nb logical_state
              shots circuit ps models rates (sweep.seed w) Hms Hrs)
    as [_ Hlr].
  pose proof (SweepFacts.keys_record_rates ps rates Hlr) as Hkeys.
  rewrite (SweepFacts.grid_known rng backend code ps noise_type
             logical_state shots w nb Hnoise Hl).
  do 2 eexists. split; [exact Hrun|].
  intros p Hp.
  destruct (TraceFacts.remembered ps p Hp (keys (@nil (Q * Q))))
    as (k & Hk & Ek).
  fold (record_rates ps rates).
  apply (TraceFacts.dict_get_key (record_rates ps rates) p k);
    [|exact Ek].
  rewrite Hkeys. exact Hk.
Qed.

Lemma grid_result_has_every_strength_witness :
  exists w' results,
    sweep.run_code_on_noise_grid sweep.ideal_backend SteaneCode7
      [1 # 5; 1 # 10; 2 # 10]%Q "depolarizing" "1" 100 sweep.start
    = (w', Ok results)
    /\ forall p, In p [1 # 5; 1 # 10; 2 # 10]%Q ->
         exists rate, dict_get Qeq_bool p results = Some rate.
Proof.
  apply (grid_result_has_every_strength unit sweep.ideal_backend
           SteaneCode7 [1 # 5; 1 # 10; 2 # 10]%Q "depolarizing" "1" 100
           sweep.start
           (match build_circuit SteaneCode7 "1" with
            | Ok circuit => circuit
            | Raise _ => mkCircuit 0 0 []
            end)).
  - right. left. reflexivity.
  - repeat constructor; discriminate.
  - reflexivity.
  - intros noise_model s. eexists. vm_compute. reflexivity.
Defined.

(** * The circuits *)

Ltac circuit_shape gates :=
  eexists; split; [reflexivity|];
  split; [reflexivity|]; split; [reflexivity|];
  exists gates; split; [reflexivity|];
  repeat (apply Forall_cons; [vm_compute; repeat split; lia|]);
  apply Forall_nil.

(** X18. For a logical state "0" or "1" each of the four codes builds a
    circuit with as many qubits and classical bits as the code has physical
    qubits; the circuit applies gates that stay within the register (no CX
    has its control as target) and then measures every qubit, qubit q into
    classical bit q, which is where the decoders read it. *)
Theorem circuits_measure_every_qubit (code : BaseCode) (logical_state : str)
    (Hcode : In code all_codes)
    (Hstate : In logical_state [lit "0"; lit "1"]) :
  exists circuit,
    build_circuit code logical_state = Ok circuit
    /\ measures_every_qubit circuit (n_physical code).
Proof.
  unfold measures_every_qubit.
  destruct Hcode as [<-|[<-|[<-|[<-|[]]]]];
    destruct Hstate as [<-|[<-|[]]].
  - circuit_shape [CX 0 1; CX 0 2].
  - circuit_shape [X 0; CX 0 1; CX 0 2].
  - circuit_shape
      (firstn 14 (data (match shor9.build_circuit "0" with
                        | Ok c => c
                        | Raise _ => mkCircuit 0 0 []
                        end))).
  - circuit_shape
      (firstn 15 (data (match shor9.build_circuit "1" with
                        | Ok c => c
                        | Raise _ => mkCircuit 0 0 []
                        end))).
  - circuit_shape
      (firstn 48 (data (match rotated_surface_d3.build_circuit "0" with
                        | Ok c => c
                        | Raise _ => mkCircuit 0 0 []
                        end))).
  - circuit_shape
      (firstn 49 (data (match rotated_surface_d3.build_circuit "1" with
                        | Ok c => c
                        | Raise _ => mkCircuit 0 0 []
                        end))).
  - circuit_shape
      (firstn 12 (data (match steane7.build_circuit "0" with
                        | Ok c => c
                        | Raise _ => mkCircuit 0 0 []
                        end))).
  - circuit_shape
      (firstn 19 (data (match steane7.build_circuit "1" with
                        | Ok c => c
                        | Raise _ => mkCircuit 0 0 []
                        end))).
Qed.

Lemma circuits_measure_every_qubit_witness :
  exists circuit,
    build_circuit ShorCode9 "1" = Ok circuit
    /\ measures_every_qubit circuit (n_physical ShorCode9).
Proof.
  apply circuits_measure_every_qubit.
  - right. left. reflexivity.
  - right. left. reflexivity.
Defined.

(** X21. Each of the four codes refuses to build a circuit for a logical
    state other than "0" and "1", with the ValueError the decoders raise;
    and the circuit for "1" holds the instructions of the circuit for "0"
    in the same order, with X gates added. *)
Theorem circuits_of_both_states (code : BaseCode) (Hcode : In code all_codes) :
  (forall logical_state,
      ~ In logical_state [lit "0"; lit "1"] ->
      build_circuit code logical_state
      = Raise (ValueError "Only logical states '0' and '1' are supported."))
  /\ exists zero one_,
      build_circuit code "0" = Ok zero
      /\ build_circuit code "1" = Ok one_
      /\ filter (fun i => match i with X _ => false | _ => true end)
                (data one_)
         = data zero
      /\ filter (fun i => match i with X _ => false | _ => true end)
                (data zero)
         = data zero
      /\ data one_ <> data zero.
Proof.
  split.
  - intros logical_state Hs.
    apply SweepFacts.build_circuit_refuses; assumption.
  - destruct Hcode as [<-|[<-|[<-|[<-|[]]]]];
      do 2 eexists;
      (split; [reflexivity|]); (split; [reflexivity|]);
      (split; [reflexivity|]); (split; [reflexivity|]); discriminate.
Qed.

Lemma circuits_of_both_states_witness :
  build_circuit SteaneCode7 "2"
  = Raise (ValueError "Only logical states '0' and '1' are supported.").
Proof.
  apply (proj1 (circuits_of_both_states SteaneCode7
                  ltac:(right; right; right; left; reflexivity))).
  intros [E|[E|[]]]; discriminate E.
Defined.

(** * The active-correction demonstration *)

Module DemoFacts.
Import active_correction_demo.

Lemma str_eqb_refl (s : str) : str_eqb s s = true.
Proof. apply SweepFacts.str_eqb_eq. reflexivity. Qed.

Lemma get_set (d : dict str Z) (k k' : str) (v : Z) :
  get_or_zero k' (dict_set str_eqb d k v)
  = if str_eqb k k' then v else get_or_zero k' d.
Proof.
  unfold get_or_zero.
  induction d as [|[k0 v0] d IH]; cbn [dict_set dict_get].
  - destruct (str_eqb k k'); reflexivity.
  - destruct (str_eqb k0 k) eqn:E0.
    + apply SweepFacts.str_eqb_eq in E0. subst k0. cbn [dict_get].
      destruct (str_eqb k k'); reflexivity.
    + cbn [dict_get]. destruct (str_eqb k0 k') eqn:E1.
      * apply SweepFacts.str_eqb_eq in E1. subst k0.
        destruct (str_eqb k k') eqn:E2; [|reflexivity].
        apply SweepFacts.str_eqb_eq in E2. subst k'.
        rewrite str_eqb_refl in E0. discriminate.
      * exact IH.
Qed.

Lemma keys_set (d : dict str Z) (k : str) (v : Z) :
  keys (dict_set str_eqb d k v)
  = if dict_mem str_eqb k d then keys d else keys d ++ [k].
Proof.
  unfold keys, dict_mem.
  induction d as [|[k0 v0] d IH]; cbn [dict_set existsb map fst app].
  - reflexivity.
  - destruct (str_eqb k0 k) eqn:E0; cbn [orb map fst]; [reflexivity|].
    rewrite IH. destruct (existsb _ d); reflexivity.
Qed.

Lemma sum_set (d : dict str Z) (k : str) (v : Z) :
  sum (values (dict_set str_eqb d k v))
  = sum (values d) - get_or_zero k d + v.
Proof.
  unfold values, get_or_zero.
  induction d as [|[k0 v0] d IH]; cbn [dict_set dict_get map snd].
  - cbn. lia.
  - destruct (str_eqb k0 k); cbn [map snd]; rewrite !RateFacts.sum_cons.
    + lia.
    + rewrite IH. lia.
Qed.

Lemma suffix_total_cons (key bitstring : str) (count : Z)
    (raw : dict str Z) :
  suffix_total key ((bitstring, count) :: raw)
  = (if str_eqb (last_three bitstring) key then count else 0)
    + suffix_total key raw.
Proof.
  unfold suffix_total. cbn [filter].
  destruct (str_eqb (last_three bitstring) key); cbn [map snd];
    rewrite ?RateFacts.sum_cons; lia.
Qed.

Lemma fold_get (raw : list (str * Z)) :
  forall (d : dict str Z) (key : str),
    get_or_zero key (fold_left add_count raw d)
    = get_or_zero key d + suffix_total key raw.
Proof.
  induction raw as [|[bitstring count] raw IH]; intros d key;
    cbn [fold_left].
  - unfold suffix_total. cbn. lia.
  - rewrite IH, suffix_total_cons. unfold add_count. rewrite get_set.
    destruct (str_eqb (last_three bitstring) key) eqn:E; [|lia].
    apply SweepFacts.str_eqb_eq in E. subst key. lia.
Qed.

Lemma fold_sum (raw : list (str * Z)) :
  forall d : dict str Z,
    sum (values (fold_left add_count raw d))
    = sum (values d) + sum (values raw).
Proof.
  induction raw as [|[bitstring count] raw IH]; intros d; cbn [fold_left].
  - cbn. lia.
  - rewrite IH. unfold add_count. rewrite sum_set.
    change (values ((bitstring, count) :: raw)) with (count :: values raw).
    rewrite RateFacts.sum_cons. lia.
Qed.

Lemma mem_keys (k : str) (d : dict str Z) :
  dict_mem str_eqb k d = true <-> In k (keys d).
Proof. apply SweepFacts.dict_mem_keys. Qed.

Lemma fold_keys (raw : list (str * Z)) :
  forall (d : dict str Z) (key : str),
    In key (keys (fold_left add_count raw d))
    <-> In key (keys d) \/ In key (map last_three (keys raw)).
Proof.
  induction raw as [|[bitstring count] raw IH]; intros d key;
    cbn [fold_left].
  - cbn. tauto.
  - rewrite IH. unfold add_count. rewrite keys_set.
    change (keys ((bitstring, count) :: raw)) with (bitstring :: keys raw).
    cbn [map].
    destruct (dict_mem str_eqb (last_three bitstring) d) eqn:E.
    + apply mem_keys in E. split.
      * intros [H|H]; [left; exact H|right; right; exact H].
      * intros [H|[<-|H]]; [left; exact H|left; exact E|right; exact H].
    + rewrite in_app_iff. cbn [In]. tauto.
Qed.

Lemma fold_nodup (raw : list (str * Z)) :
  forall d : dict str Z,
    NoDup (keys d) -> NoDup (keys (fold_left add_count raw d)).
Proof.
  induction raw as [|[bitstring count] raw IH]; intros d Hd;
    cbn [fold_left]; [exact Hd|].
  apply IH. unfold add_count. rewrite keys_set.
  destruct (dict_mem str_eqb (last_three bitstring) d) eqn:E; [exact Hd|].
  apply NoDup_app; [exact Hd|constructor; [intros []|constructor]|].
  intros k Hk [<-|[]].
  apply mem_keys in Hk. congruence.
Qed.

Lemma allowed_iff (error_qubit : option Z) :
  allowed_error_qubit error_qubit = true
  <-> In error_qubit [None; Some 0; Some 1; Some 2].
Proof.
  unfold allowed_error_qubit. destruct error_qubit as [q|].
  - rewrite !orb_true_iff, !Z.eqb_eq. cbn [In]. split.
    + intros [[->| ->]| ->]; tauto.
    + intros [H|[H|[H|[H|[]]]]]; try discriminate H;
        injection H as <-; tauto.
  - split; [left; reflexivity|reflexivity].
Qed.

End DemoFacts.

(** X19. The loop of [run_active_correction_demo] that folds the raw counts
    onto the last three characters of their keys marginalises them: the
    keys of the result are pairwise different and are exactly the endings
    of the raw keys, each carries the added-up frequencies of the raw keys
    with that ending, and the total frequency is unchanged. *)
Theorem demo_counts_are_marginals (raw_counts : dict str Z) :
  let data_counts :=
    fold_left active_correction_demo.add_count (items raw_counts) [] in
  NoDup (keys data_counts)
  /\ (forall data_bits,
         In data_bits (keys data_counts)
         <-> exists bitstring,
             In bitstring (keys raw_counts)
             /\ active_correction_demo.last_three bitstring = data_bits)
  /\ (forall data_bits,
         active_correction_demo.get_or_zero data_bits data_counts
         = suffix_total data_bits raw_counts)
  /\ sum (values data_counts) = sum (values raw_counts).
Proof.
  cbv zeta. unfold items. split; [|split; [|split]].
  - apply DemoFacts.fold_nodup. constructor.
  - intros data_bits. rewrite DemoFacts.fold_keys, in_map_iff.
    cbn [keys map In]. split.
    + intros [[]|(b & E & Hb)]. exists b. split; assumption.
    + intros (b & Hb & E). right. exists b. split; assumption.
  - intros data_bits. rewrite DemoFacts.fold_get. reflexivity.
  - rewrite DemoFacts.fold_sum. reflexivity.
Qed.

